(** * jobs_search.py: daily job search and e-mail digest

    A shallow embedding of [src/jobs_search.py] and the properties of its
    query builder, search client, aggregator, report renderer, mailer and
    orchestrator.

    Conventions of the embedding.
    - A Python [str] is a [string] holding its UTF-8 bytes.  The only
      characters the script inspects ([.], [&], [<], [>], the two quotes)
      are ASCII, so byte-wise and code-point-wise processing agree.
    - The values the script reads from the environment and from the fields
      of a search hit are [None] or a [str]: type [pyval].
    - A dict with string keys is a [gmap string _]; a dict whose iteration
      order is observed ([results]) is an association list.
    - Raising is modelled by the [result] type; code with effects (HTTP,
      SMTP, printing, sleeping, the clock) runs in the monad [M] over a
      [state] holding the outside world, the trace of effects performed so
      far and the mutable locals of [main]. *)

From Stdlib Require Import ZArith Ascii List DecimalString.
From Stdlib Require String.
From stdpp Require Import base option list gmap strings.

Local Open Scope Z_scope.

(* ===================================================================== *)
(** * Python values, exceptions and the library functions used           *)
(* ===================================================================== *)

Inductive pyval : Type :=
| PNone
| PStr (s : string).

#[global] Instance pyval_eq_dec : EqDecision pyval.
Proof. solve_decision. Defined.

Definition pyval_to_option (v : pyval) : option string :=
  match v with PNone => None | PStr s => Some s end.

Definition pyval_of_option (o : option string) : pyval :=
  match o with None => PNone | Some s => PStr s end.

#[global] Program Instance pyval_countable : Countable pyval :=
  inj_countable' pyval_to_option pyval_of_option _.
Next Obligation. by intros []. Qed.

(** Truth value of an object: [None] and the empty string are false. *)
Definition truthy (v : pyval) : bool :=
  match v with
  | PNone => false
  | PStr s => negb (String.eqb s "")
  end.

(** [str(v)], as an f-string or [print] formats a value. *)
Definition py_str (v : pyval) : string :=
  match v with
  | PNone => "None"
  | PStr s => s
  end.

Inductive exn_class : Type :=
| SystemExit | KeyboardInterrupt
| RuntimeError | TypeError | AttributeError | KeyError
| ReadTimeout | ConnectionError | HTTPError | JSONDecodeError
| SMTPException | OSError.

#[global] Instance exn_class_eq_dec : EqDecision exn_class.
Proof. solve_decision. Defined.

Record exn : Type := Exn { exn_cls : exn_class; exn_msg : string }.

#[global] Instance exn_eq_dec : EqDecision exn.
Proof. solve_decision. Defined.

(** [except Exception] catches every class but the two that derive from
    [BaseException] only. *)
Definition is_Exception (e : exn) : bool :=
  match exn_cls e with
  | SystemExit | KeyboardInterrupt => false
  | _ => true
  end.

Inductive result (A : Type) : Type :=
| Ok (a : A)
| Raise (e : exn).
Arguments Ok {A} a.
Arguments Raise {A} e.

#[global] Instance result_ret : MRet result := fun A a => Ok a.
#[global] Instance result_bind : MBind result := fun A B f r =>
  match r with
  | Ok a => f a
  | Raise e => Raise e
  end.

Definition dq : ascii := ascii_of_nat 34.
Definition nl : string := String (ascii_of_nat 10) "".

(** A text between double quotes. *)
Definition quoted (s : string) : string := String dq (s +:+ String dq "").

(** [a + b]: defined on two strings only. *)
Definition py_add (a b : pyval) : result pyval :=
  match a, b with
  | PStr x, PStr y => Ok (PStr (x +:+ y))
  | PStr _, PNone =>
      Raise (Exn TypeError
               ("can only concatenate str (not " +:+ quoted "NoneType" +:+ ") to str"))
  | PNone, PStr _ =>
      Raise (Exn TypeError "unsupported operand type(s) for +: 'NoneType' and 'str'")
  | PNone, PNone =>
      Raise (Exn TypeError "unsupported operand type(s) for +: 'NoneType' and 'NoneType'")
  end.

(** [d.get(k)], [d.get(k, dflt)] and [d[k]] on a dict with string keys. *)
Definition dict_get (d : gmap string pyval) (k : string) : pyval :=
  default PNone (d !! k).

Definition dict_get_default (d : gmap string pyval) (k : string) (dflt : pyval) : pyval :=
  default dflt (d !! k).

Definition dict_index (d : gmap string pyval) (k : string) : result pyval :=
  match d !! k with
  | Some v => Ok v
  | None => Raise (Exn KeyError ("'" +:+ k +:+ "'"))
  end.

(** [results[role] = collected] on an insertion-ordered dict: an existing
    key keeps its position, a new key goes last. *)
Fixpoint dict_set {V : Type} (d : list (string * V)) (k : string) (v : V) : list (string * V) :=
  match d with
  | [] => [(k, v)]
  | (k', v') :: d' =>
      if String.eqb k' k then (k, v) :: d' else (k', v') :: dict_set d' k v
  end.

(** [s.replace(c, r)] for a one-character pattern [c]. *)
Fixpoint replace_char (c : ascii) (r : string) (s : string) : string :=
  match s with
  | EmptyString => EmptyString
  | String a s' =>
      if Ascii.eqb a c then r +:+ replace_char c r s'
      else String a (replace_char c r s')
  end.

(** [html.escape(s)] of the standard library, with its default
    [quote=True]: five replacements, the ampersand first. *)
Definition html_escape (s : string) : string :=
  let s := replace_char "&" "&amp;" s in
  let s := replace_char "<" "&lt;" s in
  let s := replace_char ">" "&gt;" s in
  let s := replace_char dq "&quot;" s in
  let s := replace_char "'" "&#x27;" s in
  s.

(** [html.escape(v)] on an object: [None] has no [replace] method. *)
Definition py_html_escape (v : pyval) : result string :=
  match v with
  | PStr s => Ok (html_escape s)
  | PNone => Raise (Exn AttributeError "'NoneType' object has no attribute 'replace'")
  end.

(** [sub in s] on strings. *)
Fixpoint str_in (sub s : string) : bool :=
  String.prefix sub s ||
  match s with
  | EmptyString => false
  | String _ s' => str_in sub s'
  end.

(** [str(n)] for a length. *)
Definition str_of_nat (n : nat) : string :=
  NilEmpty.string_of_uint (Nat.to_uint n).

(* ===================================================================== *)
(** * Configuration (the module-level globals)                           *)
(* ===================================================================== *)

(** The globals read from the environment when the module is loaded.
    [os.environ.get] gives [None] or a string; [SMTP_HOST] has a string
    default, [SMTP_PORT] is an [int], [TOP_STARTUPS] a list of strings. *)
Record Config : Type := {
  API_KEY : pyval;
  CX : pyval;
  RECIPIENT : pyval;
  SENDER : pyval;
  SMTP_HOST : string;
  SMTP_PORT : Z;
  SMTP_USER : pyval;
  SMTP_PASS : pyval;
  TOP_STARTUPS : list string
}.

Definition ROLES : list string :=
  [ "Frontend Developer";
    "Backend Developer";
    "MERN Full Stack Developer";
    "Salesforce Developer" ].

Definition MAX_PER_ROLE : Z := 8.

(* ===================================================================== *)
(** * Search responses and result items                                  *)
(* ===================================================================== *)

(** A raw hit and a ResultItem are dicts from field names to values. *)
Abbreviation item := (gmap string pyval).

(** The value under a key of the parsed response: an array of hits, or
    anything else the script could find there ([null] or a string). *)
Inductive jvalue : Type :=
| JScalar (v : pyval)
| JArray (hits : list item).

Abbreviation search_json := (gmap string jvalue).

(** The body of the loop of [extract_items]. *)
Definition extract_item (it : item) : item :=
  let title := dict_get it "title" in
  let link := dict_get it "link" in
  let snippet := dict_get_default it "snippet" (PStr "") in
  <["snippet" := snippet]> (<["link" := link]> (<["title" := title]> ∅)).

Fixpoint extract_loop (hits : list item) (items : list item) : list item :=
  match hits with
  | [] => items
  | it :: rest => extract_loop rest (items ++ [extract_item it])
  end.

(** [extract_items(search_json)].  Iterating [None] is a [TypeError];
    iterating a string yields its characters, on which [.get] is an
    [AttributeError] (so only the empty string passes). *)
Definition extract_items (js : search_json) : result (list item) :=
  match default (JArray []) (js !! "items") with
  | JArray hits => Ok (extract_loop hits [])
  | JScalar PNone => Raise (Exn TypeError "'NoneType' object is not iterable")
  | JScalar (PStr s) =>
      if String.eqb s "" then Ok []
      else Raise (Exn AttributeError "'str' object has no attribute 'get'")
  end.

(** The dedup key of the aggregation loop:
    [it.get("link") or (it.get("title","") + it.get("snippet",""))]. *)
Definition item_key (it : item) : result pyval :=
  let link := dict_get it "link" in
  if truthy link then Ok link
  else py_add (dict_get_default it "title" (PStr ""))
              (dict_get_default it "snippet" (PStr "")).

(* ===================================================================== *)
(** * Query builder                                                      *)
(* ===================================================================== *)

(** [for d in TOP_STARTUPS: ... queries.append(...)]. *)
Fixpoint org_queries_loop (role : string) (ds : list string) (queries : list string) : list string :=
  match ds with
  | [] => queries
  | d :: rest =>
      let queries :=
        if str_in "." d then queries ++ [role +:+ " site:" +:+ d]
        else queries ++ [role +:+ " " +:+ quoted d] in
      org_queries_loop role rest queries
  end.

Definition build_queries (cfg : Config) (role : string) : list string :=
  let queries := [] in
  let queries :=
    match TOP_STARTUPS cfg with
    | [] => queries
    | _ :: _ => org_queries_loop role (TOP_STARTUPS cfg) queries
    end in
  let queries := queries ++ [role +:+ " startup hiring"] in
  let queries := queries ++ [role +:+ " " +:+ quoted "we are hiring"] in
  let queries := queries ++ [role +:+ " " +:+ quoted "hiring now"] in
  queries.

(* ===================================================================== *)
(** * The outside world, effects and the monad                           *)
(* ===================================================================== *)

Record search_params : Type := {
  p_key : pyval;
  p_cx : pyval;
  p_q : string;
  p_num : Z
}.

(** The body of a response: text that does not decode as JSON, with the
    message of the decode error, or the object it decodes to. *)
Inductive http_body : Type :=
| BodyMalformed (msg : string)
| BodyJson (js : search_json).

(** What [requests.get] returns, as the script uses it: [http_error] is
    the message of the [HTTPError] that [raise_for_status] raises for the
    status of the response, if it raises. *)
Record http_response : Type := {
  http_error : option string;
  http_body_of : http_body
}.

Inductive http_reply : Type :=
| HttpRaised (e : exn)
| HttpReturned (resp : http_response).

Record mime_message : Type := {
  msg_subtype : string;
  msg_Subject : string;
  msg_From : pyval;
  msg_To : pyval;
  msg_parts : list (string * string)
}.

(** The calls on the SMTP session; [SmtpSendmail] carries the message
    itself, standing for its [as_string()]. *)
Inductive smtp_op : Type :=
| SmtpConnect (host : string) (port : Z) (timeout : Z)
| SmtpEhlo
| SmtpStarttls
| SmtpLogin (user password : pyval)
| SmtpSendmail (from_addr : pyval) (to_addrs : list pyval) (msg : mime_message)
| SmtpQuit.

(** One entry per effect performed, with what the world answered. *)
Inductive event : Type :=
| EvHttpGet (url : string) (params : search_params) (timeout : Z) (reply : http_reply)
| EvSmtp (op : smtp_op) (outcome : option exn)
| EvPrint (args : list string)
| EvSleep (milliseconds : Z).

(** The collaborators of the script: the HTTP client, the SMTP session and
    the clock, each reading and advancing an abstract world. *)
Class Env : Type := {
  World : Type;
  requests_get : string -> search_params -> Z -> World -> http_reply * World;
  smtp_call : smtp_op -> World -> option exn * World;
  strftime : string -> World -> string
}.

(** The world, the trace, and the mutable locals of [main]. *)
Record state `{Env} : Type := State {
  world : World;
  trace : list event;
  results : list (string * list item);
  seen : gmap pyval bool;
  collected : list item
}.

Definition M `{Env} (A : Type) : Type := state -> result A * state.

#[global] Instance M_ret `{Env} : MRet M := fun A a st => (Ok a, st).
#[global] Instance M_bind `{Env} : MBind M := fun A B f m st =>
  match m st with
  | (Ok a, st') => f a st'
  | (Raise e, st') => (Raise e, st')
  end.

Definition raise `{Env} {A : Type} (e : exn) : M A := fun st => (Raise e, st).

Definition lift `{Env} {A : Type} (r : result A) : M A := fun st => (r, st).

(** [try: m] with the outcome handed to the handler. *)
Definition try_ `{Env} {A : Type} (m : M A) : M (result A) := fun st =>
  let (r, st') := m st in (Ok r, st').

(** [try: body finally: fin].  An exception of [fin] replaces the outcome
    of [body]. *)
Definition try_finally `{Env} {A : Type} (body : M A) (fin : M unit) : M A := fun st =>
  let (r, st1) := body st in
  match fin st1 with
  | (Ok _, st2) => (r, st2)
  | (Raise e, st2) => (Raise e, st2)
  end.

Definition log_event `{Env} (ev : event) (st : state) : state :=
  State _ (world st) (trace st ++ [ev]) (results st) (seen st) (collected st).

Definition set_world `{Env} (w : World) (st : state) : state :=
  State _ w (trace st) (results st) (seen st) (collected st).

Definition set_results `{Env} (r : list (string * list item)) (st : state) : state :=
  State _ (world st) (trace st) r (seen st) (collected st).

Definition set_seen `{Env} (s : gmap pyval bool) (st : state) : state :=
  State _ (world st) (trace st) (results st) s (collected st).

Definition set_collected `{Env} (c : list item) (st : state) : state :=
  State _ (world st) (trace st) (results st) (seen st) c.

Definition gets `{Env} {A : Type} (f : state -> A) : M A := fun st => (Ok (f st), st).

Definition modify `{Env} (f : state -> state) : M unit := fun st => (Ok tt, f st).

Definition print `{Env} (args : list string) : M unit := modify (log_event (EvPrint args)).

Definition sleep `{Env} (ms : Z) : M unit := modify (log_event (EvSleep ms)).

Definition http_get `{Env} (url : string) (params : search_params) (timeout : Z) : M http_response :=
  fun st =>
    let (reply, w) := requests_get url params timeout (world st) in
    let st' := log_event (EvHttpGet url params timeout reply) (set_world w st) in
    match reply with
    | HttpRaised e => (Raise e, st')
    | HttpReturned resp => (Ok resp, st')
    end.

Definition smtp `{Env} (op : smtp_op) : M unit := fun st =>
  let (outcome, w) := smtp_call op (world st) in
  let st' := log_event (EvSmtp op outcome) (set_world w st) in
  match outcome with
  | Some e => (Raise e, st')
  | None => (Ok tt, st')
  end.

(* ===================================================================== *)
(** * Search client                                                      *)
(* ===================================================================== *)

(** [resp.raise_for_status()]. *)
Definition raise_for_status (resp : http_response) : result unit :=
  match http_error resp with
  | Some msg => Raise (Exn HTTPError msg)
  | None => Ok tt
  end.

(** [resp.json()]: a decode error when the body is not JSON. *)
Definition response_json (resp : http_response) : result search_json :=
  match http_body_of resp with
  | BodyJson js => Ok js
  | BodyMalformed msg => Raise (Exn JSONDecodeError msg)
  end.

Definition google_search `{Env} (cfg : Config) (query : string) (num : Z) : M search_json :=
  if negb (truthy (API_KEY cfg) && truthy (CX cfg)) then
    raise (Exn RuntimeError "GCSE_API_KEY and GCSE_CX environment variables are required.")
  else
    let params :=
      {| p_key := API_KEY cfg; p_cx := CX cfg; p_q := query; p_num := Z.min num 10 |} in
    resp ← http_get "https://www.googleapis.com/customsearch/v1" params 20;
    lift (raise_for_status resp);;
    lift (response_json resp).

(* ===================================================================== *)
(** * Aggregator                                                         *)
(* ===================================================================== *)

(** [for it in items: ...], the inner loop of [main]. *)
Fixpoint scan_items `{Env} (items : list item) : M unit :=
  match items with
  | [] => mret tt
  | it :: rest =>
      key ← lift (item_key it);
      sn ← gets seen;
      if bool_decide (is_Some (sn !! key)) then scan_items rest
      else
        modify (set_seen (<[key := true]> sn));;
        c ← gets collected;
        modify (set_collected (c ++ [it]));;
        c ← gets collected;
        if MAX_PER_ROLE <=? Z.of_nat (length c) then mret tt
        else scan_items rest
  end.

(** [for q in queries: ...], the loop over the queries of one role;
    [time.sleep(0.4)] is recorded as a pause of 400 milliseconds. *)
Fixpoint run_queries `{Env} (cfg : Config) (queries : list string) : M unit :=
  match queries with
  | [] => mret tt
  | q :: rest =>
      r ← try_ (google_search cfg q MAX_PER_ROLE);
      match r with
      | Raise e =>
          if is_Exception e then
            print ["Search error for query:"; q; exn_msg e];;
            run_queries cfg rest
          else raise e
      | Ok js =>
          items ← lift (extract_items js);
          scan_items items;;
          c ← gets collected;
          if MAX_PER_ROLE <=? Z.of_nat (length c) then mret tt
          else
            sleep 400;;
            run_queries cfg rest
      end
  end.

(** The body of [for role in ROLES]. *)
Definition collect_role `{Env} (cfg : Config) (role : string) : M unit :=
  let queries := build_queries cfg role in
  modify (set_seen ∅);;
  modify (set_collected []);;
  run_queries cfg queries;;
  c ← gets collected;
  rs ← gets results;
  modify (set_results (dict_set rs role c)).

Fixpoint for_roles `{Env} (cfg : Config) (roles : list string) : M unit :=
  match roles with
  | [] => mret tt
  | role :: rest => collect_role cfg role;; for_roles cfg rest
  end.

(* ===================================================================== *)
(** * Report renderer                                                    *)
(* ===================================================================== *)

Definition em_dash : string := "—".

(** The [<li>] entry of one item, the body of [for it in items]. *)
Definition render_item (it : item) : result string :=
  t ← dict_index it "title";
  shown ← (if truthy t then Ok t else dict_index it "link");
  title ← py_html_escape shown;
  link ← dict_index it "link";
  snippet ← py_html_escape (dict_get_default it "snippet" (PStr ""));
  Ok ("<li><a href='" +:+ py_str link +:+ "'>" +:+ title +:+ "</a><br/><small>"
        +:+ snippet +:+ "</small></li>").

Fixpoint render_items (items : list item) (body : string) : result string :=
  match items with
  | [] => Ok body
  | it :: rest =>
      entry ← render_item it;
      render_items rest (body +:+ entry)
  end.

(** The body of [for role, items in results_by_role.items()]. *)
Definition render_role (role : string) (items : list item) (body : string) : result string :=
  let body := body +:+ "<h3>" +:+ html_escape role +:+ " " +:+ em_dash +:+ " "
                +:+ str_of_nat (length items) +:+ " results</h3>" +:+ nl +:+ "<ul>" in
  let body :=
    match items with
    | [] => body +:+ "<li>No results found.</li>"
    | _ :: _ => body
    end in
  body ← render_items items body;
  Ok (body +:+ "</ul>").

Fixpoint render_roles (results_by_role : list (string * list item)) (body : string) : result string :=
  match results_by_role with
  | [] => Ok body
  | (role, items) :: rest =>
      body ← render_role role items body;
      render_roles rest body
  end.

(** [build_html_report(results_by_role)]; [now] is the formatted clock
    reading of its first line. *)
Definition build_html_report (now : string) (results_by_role : list (string * list item)) : result string :=
  let header := "<h2>Job search results " +:+ em_dash +:+ " " +:+ now +:+ "</h2>" in
  let body := header in
  body ← render_roles results_by_role body;
  let body := body +:+ "<hr/><p>Generated automatically.</p>" in
  Ok ("<html><body>" +:+ body +:+ "</body></html>").

(* ===================================================================== *)
(** * Mailer                                                             *)
(* ===================================================================== *)

Definition send_email `{Env} (cfg : Config) (subject html_body : string) : M unit :=
  if negb (truthy (SMTP_PASS cfg) && truthy (SENDER cfg) && truthy (RECIPIENT cfg)) then
    raise (Exn RuntimeError "SMTP and email environment variables required.")
  else
    let msg :=
      {| msg_subtype := "alternative";
         msg_Subject := subject;
         msg_From := SENDER cfg;
         msg_To := RECIPIENT cfg;
         msg_parts := [(html_body, "html")] |} in
    smtp (SmtpConnect (SMTP_HOST cfg) (SMTP_PORT cfg) 30);;
    try_finally
      (smtp SmtpEhlo;;
       (if SMTP_PORT cfg =? 587 then smtp SmtpStarttls;; smtp SmtpEhlo else mret tt);;
       smtp (SmtpLogin (SMTP_USER cfg) (SMTP_PASS cfg));;
       smtp (SmtpSendmail (SENDER cfg) [RECIPIENT cfg] msg))
      (smtp SmtpQuit).

(* ===================================================================== *)
(** * Orchestrator                                                       *)
(* ===================================================================== *)

Definition main `{Env} (cfg : Config) : M unit :=
  if negb (truthy (API_KEY cfg) && truthy (CX cfg) && truthy (RECIPIENT cfg)
           && truthy (SENDER cfg) && truthy (SMTP_PASS cfg)) then
    raise (Exn SystemExit "Missing required environment variables. See script header.")
  else
    modify (set_results []);;
    for_roles cfg ROLES;;
    rs ← gets results;
    now ← gets (fun st => strftime "%Y-%m-%d %H:%M %Z" (world st));
    html_report ← lift (build_html_report now rs);
    today ← gets (fun st => strftime "%Y-%m-%d" (world st));
    let subject := "Daily job digest " +:+ em_dash +:+ " " +:+ today in
    send_email cfg subject html_report;;
    print ["Sent email to"; py_str (RECIPIENT cfg)].

(* ===================================================================== *)
(** * Reference formulations                                             *)
(* ===================================================================== *)

(** The notions in which the properties are stated: the queries, the
    session and the report as the specification words them, and what a
    trace says about the searches of a run. *)

(** The organization identifier contains a [.] character. *)
Definition has_dot (d : string) : bool :=
  bool_decide ("."%char ∈ String.list_ascii_of_string d).

(** The query for one target organization, as the specification words it. *)
Definition org_query (role d : string) : string :=
  if has_dot d then role +:+ " site:" +:+ d else role +:+ " " +:+ quoted d.

Definition generic_queries (role : string) : list string :=
  [ role +:+ " startup hiring";
    role +:+ " " +:+ quoted "we are hiring";
    role +:+ " " +:+ quoted "hiring now" ].

Definition search_url : string := "https://www.googleapis.com/customsearch/v1".

Definition search_params_of (cfg : Config) (query : string) (num : Z) : search_params :=
  {| p_key := API_KEY cfg; p_cx := CX cfg; p_q := query; p_num := Z.min num 10 |}.

(** The ways a search call fails: [requests.get] raises an exception
    (a timeout, a transport error), [raise_for_status] raises for the
    status of the response, or the body does not decode. *)
Inductive search_fails : http_reply -> exn -> Prop :=
| fails_raised (e : exn) :
    is_Exception e = true -> search_fails (HttpRaised e) e
| fails_status (resp : http_response) (msg : string) :
    http_error resp = Some msg ->
    search_fails (HttpReturned resp) (Exn HTTPError msg)
| fails_decode (resp : http_response) (msg : string) :
    http_error resp = None -> http_body_of resp = BodyMalformed msg ->
    search_fails (HttpReturned resp) (Exn JSONDecodeError msg).

(** The items a call of [google_search] contributes, from its outcome. *)
Definition search_items (r : result search_json) : list item :=
  match r with
  | Ok js =>
      match extract_items js with
      | Ok items => items
      | Raise _ => []
      end
  | Raise _ => []
  end.

(** The result items a search call hands to the aggregation loop: those of
    a reply that passes [raise_for_status], decodes and extracts. *)
Definition reply_items (reply : http_reply) : list item :=
  match reply with
  | HttpRaised _ => []
  | HttpReturned resp =>
      match raise_for_status resp, response_json resp with
      | Ok _, Ok js =>
          match extract_items js with
          | Ok items => items
          | Raise _ => []
          end
      | _, _ => []
      end
  end.

Definition event_items (ev : event) : list item :=
  match ev with
  | EvHttpGet _ _ _ reply => reply_items reply
  | _ => []
  end.

(** All result items returned by the searches of a trace, in query order,
    then item order. *)
Definition returned_items (tr : list event) : list item :=
  concat (map event_items tr).

Definition is_http_get (ev : event) : Prop :=
  match ev with
  | EvHttpGet _ _ _ _ => True
  | _ => False
  end.

(** [results[role]], for stating what the dict holds. *)
Fixpoint dict_lookup {V : Type} (d : list (string * V)) (k : string) : option V :=
  match d with
  | [] => None
  | (k', v) :: d' => if String.eqb k' k then Some v else dict_lookup d' k
  end.

(** The state in which [main] starts. *)
Definition initial_state `{Env} (w : World) : state := State _ w [] [] ∅ [].

Definition list_within_cap (entry : string * list item) : Prop :=
  Z.of_nat (length entry.2) <= MAX_PER_ROLE.

(** [html.escape], character by character: each of the five special
    characters becomes its entity, every other character stays. *)
Definition escape_char (a : ascii) : string :=
  if Ascii.eqb a "&" then "&amp;"
  else if Ascii.eqb a "<" then "&lt;"
  else if Ascii.eqb a ">" then "&gt;"
  else if Ascii.eqb a dq then "&quot;"
  else if Ascii.eqb a "'" then "&#x27;"
  else String a "".

Fixpoint escape_chars (s : string) : string :=
  match s with
  | EmptyString => EmptyString
  | String a s' => escape_char a +:+ escape_chars s'
  end.

(** The characters [html.escape] removes from a text. *)
Definition is_markup (a : ascii) : Prop :=
  a = "<"%char \/ a = ">"%char \/ a = dq \/ a = "'"%char.

(** The text shown in the anchor of an item: [it['title'] or it['link']]. *)
Definition anchor_source (title link : pyval) : pyval :=
  if truthy title then title else link.

Definition item_entry (href shown snippet : string) : string :=
  "<li><a href='" +:+ href +:+ "'>" +:+ html_escape shown +:+ "</a><br/><small>"
  +:+ html_escape snippet +:+ "</small></li>".

(** An item the renderer can show: its title and link keys are present,
    the text for the anchor and the snippet are strings. *)
Definition renderable (it : item) : Prop :=
  exists (title link : pyval) (shown snippet : string),
    it !! "title" = Some title /\ it !! "link" = Some link /\
    anchor_source title link = PStr shown /\
    dict_get_default it "snippet" (PStr "") = PStr snippet.

(** The entries of a list of items, one after the other. *)
Fixpoint render_entries (items : list item) : result string :=
  match items with
  | [] => Ok ""
  | it :: rest =>
      entry ← render_item it;
      entries ← render_entries rest;
      Ok (entry +:+ entries)
  end.

Definition role_heading (role : string) (count : nat) : string :=
  "<h3>" +:+ html_escape role +:+ " " +:+ em_dash +:+ " "
  +:+ str_of_nat count +:+ " results</h3>" +:+ nl +:+ "<ul>".

(** The section of the report for one role. *)
Definition role_section (role : string) (items : list item) : result string :=
  entries ← render_entries items;
  Ok (role_heading role (length items)
      +:+ (match items with [] => "<li>No results found.</li>" | _ :: _ => "" end)
      +:+ entries +:+ "</ul>").

Fixpoint role_sections (results_by_role : list (string * list item)) : result string :=
  match results_by_role with
  | [] => Ok ""
  | (role, items) :: rest =>
      section ← role_section role items;
      sections ← role_sections rest;
      Ok (section +:+ sections)
  end.

(** The section of a role without results. *)
Definition empty_section (role : string) : string :=
  "<h3>" +:+ html_escape role +:+ " " +:+ em_dash +:+ " 0 results</h3>" +:+ nl
  +:+ "<ul><li>No results found.</li></ul>".

Definition report_header (now : string) : string :=
  "<h2>Job search results " +:+ em_dash +:+ " " +:+ now +:+ "</h2>".

Definition report_footer : string := "<hr/><p>Generated automatically.</p>".

(** [s.count(sub)] for overlapping occurrences: the number of positions
    of [s] at which [sub] starts. *)
Fixpoint count_starts (sub s : string) : nat :=
  (if String.prefix sub s then 1 else 0)%nat +
  match s with
  | EmptyString => 0%nat
  | String _ s' => count_starts sub s'
  end.

(** The message [send_email] builds. *)
Definition email_message (cfg : Config) (subject html_body : string) : mime_message :=
  {| msg_subtype := "alternative";
     msg_Subject := subject;
     msg_From := SENDER cfg;
     msg_To := RECIPIENT cfg;
     msg_parts := [(html_body, "html")] |}.

(** The commands of an SMTP session after the connection and before the
    closing [quit], as the specification lists them: handshake; on port
    587 the STARTTLS upgrade and a second handshake; authentication; one
    message to the one recipient. *)
Definition session_ops (cfg : Config) (msg : mime_message) : list smtp_op :=
  [SmtpEhlo]
  ++ (if SMTP_PORT cfg =? 587 then [SmtpStarttls; SmtpEhlo] else [])
  ++ [SmtpLogin (SMTP_USER cfg) (SMTP_PASS cfg);
      SmtpSendmail (SENDER cfg) [RECIPIENT cfg] msg].

(** Running a list of SMTP commands in order, up to the first failure. *)
Fixpoint run_ops `{Env} (ops : list smtp_op) : M unit :=
  match ops with
  | [] => mret tt
  | op :: rest => smtp op;; run_ops rest
  end.

Definition succeeded (ops : list smtp_op) : list event :=
  map (fun op => EvSmtp op None) ops.

Definition email_config_ok (cfg : Config) : bool :=
  truthy (SMTP_PASS cfg) && truthy (SENDER cfg) && truthy (RECIPIENT cfg).

(** A required value is missing when it is unset or empty: both are false
    in the test at the head of [main]. *)
Definition missing (v : pyval) : Prop := v = PNone \/ v = PStr "".

Definition search_config_missing (cfg : Config) : Prop :=
  missing (API_KEY cfg) \/ missing (CX cfg).

Definition email_config_missing (cfg : Config) : Prop :=
  missing (RECIPIENT cfg) \/ missing (SENDER cfg) \/ missing (SMTP_PASS cfg).

Definition config_complete (cfg : Config) : bool :=
  truthy (API_KEY cfg) && truthy (CX cfg) && truthy (RECIPIENT cfg)
  && truthy (SENDER cfg) && truthy (SMTP_PASS cfg).

Definition missing_diagnostic : exn :=
  Exn SystemExit "Missing required environment variables. See script header.".

(* ===================================================================== *)
(** * The invariant of the aggregation loops                             *)
(* ===================================================================== *)

(** The state after one new key: the two mutations of the loop body. *)
Definition record_item `{Env} (key : pyval) (it : item) (st : state) : state :=
  set_collected (collected st ++ [it]) (set_seen (<[key := true]> (seen st)) st).

Definition below_cap `{Env} (st : state) : Prop :=
  Z.of_nat (length (collected st)) < MAX_PER_ROLE.

Definition within_cap `{Env} (st : state) : Prop :=
  Z.of_nat (length (collected st)) <= MAX_PER_ROLE.

(** The loop invariant of the aggregation of one role; [P] is the list of
    items processed so far. *)
Record dedup_inv (P : list item) (sn : gmap pyval bool) (c : list item) : Prop := {
  inv_sublist : sublist c P;
  inv_seen : forall (x : item) (k : pyval),
      x ∈ P -> item_key x = Ok k -> is_Some (sn !! k);
  inv_keys : forall x : item, x ∈ P -> exists k : pyval, item_key x = Ok k;
  inv_kept : forall k : pyval, is_Some (sn !! k) ->
      exists it : item, it ∈ c /\ item_key it = Ok k;
  inv_first : forall it : item, it ∈ c ->
      exists (k : pyval) (pre post : list item),
        item_key it = Ok k /\ P = pre ++ it :: post /\
        forall x : item, x ∈ pre -> item_key x <> Ok k;
  inv_nodup : NoDup (map item_key c)
}.

(* ===================================================================== *)
(** * Sample configurations, hits and worlds                             *)
(* ===================================================================== *)

Definition sample_config : Config :=
  {| API_KEY := PStr "k";
     CX := PStr "cx";
     RECIPIENT := PStr "to@example.org";
     SENDER := PStr "from@example.org";
     SMTP_HOST := "smtp.gmail.com";
     SMTP_PORT := 587;
     SMTP_USER := PStr "from@example.org";
     SMTP_PASS := PStr "secret";
     TOP_STARTUPS := ["stripe.com"; "Acme"] |}.

Definition stripe_config : Config :=
  {| API_KEY := PStr "k";
     CX := PStr "cx";
     RECIPIENT := PStr "to@example.org";
     SENDER := PStr "from@example.org";
     SMTP_HOST := "smtp.gmail.com";
     SMTP_PORT := 587;
     SMTP_USER := PStr "from@example.org";
     SMTP_PASS := PStr "secret";
     TOP_STARTUPS := ["stripe.com"] |}.

(** The sample configuration without the search API key, and without the
    SMTP password. *)
Definition config_without_api_key : Config :=
  {| API_KEY := PNone;
     CX := CX sample_config;
     RECIPIENT := RECIPIENT sample_config;
     SENDER := SENDER sample_config;
     SMTP_HOST := SMTP_HOST sample_config;
     SMTP_PORT := SMTP_PORT sample_config;
     SMTP_USER := SMTP_USER sample_config;
     SMTP_PASS := SMTP_PASS sample_config;
     TOP_STARTUPS := TOP_STARTUPS sample_config |}.

Definition config_without_smtp_pass : Config :=
  {| API_KEY := API_KEY sample_config;
     CX := CX sample_config;
     RECIPIENT := RECIPIENT sample_config;
     SENDER := SENDER sample_config;
     SMTP_HOST := SMTP_HOST sample_config;
     SMTP_PORT := SMTP_PORT sample_config;
     SMTP_USER := SMTP_USER sample_config;
     SMTP_PASS := PNone;
     TOP_STARTUPS := TOP_STARTUPS sample_config |}.

Definition hit (title link snippet : string) : item :=
  <["snippet" := PStr snippet]> (<["link" := PStr link]> (<["title" := PStr title]> ∅)).

(** A hit that carries a snippet but neither a title nor a link. *)
Definition hit_without_title_and_link : item :=
  {[ "snippet" := PStr "Apply today" ]}.

Definition hit_a : item := hit "A" "https://a.example/1" "first".
Definition hit_a_again : item := hit "A, reposted" "https://a.example/1" "second".
Definition hit_b : item := hit "B" "https://b.example/2" "third".
Definition hit_c : item := hit "C" "https://c.example/3" "fourth".

Definition numbered_hit (n : nat) : item :=
  hit ("Job " +:+ str_of_nat n) ("https://jobs.example/" +:+ str_of_nat n) "".

Definition markup_hit : item :=
  hit "C++ <Senior> & more" "https://x.example/?a=1&b=2" "R&D <b>team</b>".

Definition untitled_hit : item :=
  extract_item {[ "link" := PStr "https://y.example/<job>" ]}.

(** A world whose search answers depend on the query alone: two hits on
    stripe.com for the query restricted to that site, no hit otherwise. *)
Definition stripe_hits : list item :=
  [ hit "Engineer" "https://stripe.com/jobs/1" "Build";
    hit "Designer" "https://stripe.com/jobs/2" "Draw" ].

Definition sample_results : list (string * list item) :=
  [ ("Backend Developer", [markup_hit; untitled_hit]); ("Salesforce Developer", []) ].

Definition ok_reply (hits : list item) : http_reply :=
  HttpReturned {| http_error := None; http_body_of := BodyJson {[ "items" := JArray hits ]} |}.

(** A world that answers the HTTP requests and the SMTP commands from two
    scripts, in order; past the end of a script every request fails to
    connect and every SMTP command succeeds. *)
Record script : Type := {
  http_replies : list http_reply;
  smtp_outcomes : list (option exn)
}.

Definition scripted : Env := {|
  World := script;
  requests_get := fun _ _ _ w =>
    match http_replies w with
    | [] => (HttpRaised (Exn ConnectionError "unreachable"), w)
    | r :: rs => (r, {| http_replies := rs; smtp_outcomes := smtp_outcomes w |})
    end;
  smtp_call := fun _ w =>
    match smtp_outcomes w with
    | [] => (None, w)
    | o :: os => (o, {| http_replies := http_replies w; smtp_outcomes := os |})
    end;
  strftime := fun fmt _ => fmt
|}.

Definition stub : Env := {|
  World := unit;
  requests_get := fun _ params _ w =>
    if String.eqb (p_q params) "Backend Developer site:stripe.com"
    then (HttpReturned {| http_error := None;
                          http_body_of := BodyJson {[ "items" := JArray stripe_hits ]} |}, w)
    else (HttpReturned {| http_error := None; http_body_of := BodyJson ∅ |}, w);
  smtp_call := fun _ w => (None, w);
  strftime := fun fmt _ => fmt
|}.

(** Three searches: hits with a repeated link, a timeout, more hits. *)
Definition sample_script : script :=
  {| http_replies :=
       [ ok_reply [hit_a; hit_b; hit_a_again];
         HttpRaised (Exn ReadTimeout "Read timed out.");
         ok_reply [hit_b; hit_c] ];
     smtp_outcomes := [] |}.

Definition sample_state : @state scripted := @initial_state scripted sample_script.

(** One search returning twelve hits with distinct links. *)
Definition twelve_hits_state : @state scripted :=
  @initial_state scripted
    {| http_replies := [ok_reply (map numbered_hit (seq 0 12))]; smtp_outcomes := [] |}.

(** A first search that times out, a second one with one hit. *)
Definition timeout_state : @state scripted :=
  @initial_state scripted
    {| http_replies := [HttpRaised (Exn ReadTimeout "Read timed out."); ok_reply [hit_c]];
       smtp_outcomes := [] |}.

(** One search whose only hit has neither title nor link. *)
Definition untitled_unlinked_state : @state scripted :=
  @initial_state scripted
    {| http_replies := [ok_reply [hit_without_title_and_link]]; smtp_outcomes := [] |}.

(** A session in which the server rejects the password. *)
Definition auth_failure_state : @state scripted :=
  @initial_state scripted
    {| http_replies := [];
       smtp_outcomes := [None; None; None; None;
                         Some (Exn SMTPException "Authentication failed")] |}.

(* ===================================================================== *)
(** * Configuration loader (the module-level assignments)                *)
(* ===================================================================== *)

Definition bytes (codes : list nat) : list ascii := map ascii_of_nat codes.

(** The characters for which [str.isspace] holds, each as its UTF-8
    bytes: U+0009 to U+000D, U+001C to U+0020, U+0085, U+00A0, U+1680,
    U+2000 to U+200A, U+2028, U+2029, U+202F, U+205F and U+3000. *)
Definition whitespace : list (list ascii) :=
  map bytes
    [ [9]; [10]; [11]; [12]; [13]; [28]; [29]; [30]; [31]; [32];
      [194; 133]; [194; 160]; [225; 154; 128];
      [226; 128; 128]; [226; 128; 129]; [226; 128; 130]; [226; 128; 131];
      [226; 128; 132]; [226; 128; 133]; [226; 128; 134]; [226; 128; 135];
      [226; 128; 136]; [226; 128; 137]; [226; 128; 138];
      [226; 128; 168]; [226; 128; 169]; [226; 128; 175];
      [226; 129; 159]; [227; 128; 128] ]%nat.

(** The text after its first character, when that character is one of
    [tokens]. *)
Fixpoint drop_space (tokens : list (list ascii)) (l : list ascii) : option (list ascii) :=
  match tokens with
  | [] => None
  | t :: ts =>
      if decide (t `prefix_of` l) then Some (drop (length t) l)
      else drop_space ts l
  end.

(** The scan from the left of [str.strip]: characters of [tokens] are
    dropped while there are any; [n] bounds the number of steps. *)
Fixpoint lstrip_fuel (tokens : list (list ascii)) (n : nat) (l : list ascii) : list ascii :=
  match n with
  | O => l
  | S n' =>
      match drop_space tokens l with
      | Some r => lstrip_fuel tokens n' r
      | None => l
      end
  end.

Definition lstrip_with (tokens : list (list ascii)) (l : list ascii) : list ascii :=
  lstrip_fuel tokens (length l) l.

(** [s.strip()]: the scan from the left, then the scan from the right on
    what is left. *)
Definition strip (l : list ascii) : list ascii :=
  rev (lstrip_with (map (@rev ascii) whitespace) (rev (lstrip_with whitespace l))).

Definition py_strip (s : string) : string :=
  String.string_of_list_ascii (strip (String.list_ascii_of_string s)).

(** [s.split(",")]. *)
Fixpoint split_comma (s : string) : list string :=
  match s with
  | EmptyString => [EmptyString]
  | String a s' =>
      if Ascii.eqb a "," then EmptyString :: split_comma s'
      else
        match split_comma s' with
        | [] => [String a EmptyString]
        | piece :: pieces => String a piece :: pieces
        end
  end.

(** [[s.strip() for s in pieces if s.strip()]]. *)
Fixpoint stripped_nonempty (pieces : list string) : list string :=
  match pieces with
  | [] => []
  | s :: rest =>
      if truthy (PStr (py_strip s)) then py_strip s :: stripped_nonempty rest
      else stripped_nonempty rest
  end.

(** [os.environ.get(k)]. *)
Definition environ_get (environ : gmap string string) (k : string) : pyval :=
  match environ !! k with
  | Some v => PStr v
  | None => PNone
  end.

(** The assignments at the head of the module, in their order.  [py_int]
    stands for [int(...)] on a string; it gives [None] where [int] raises
    a [ValueError], and the module then fails to load. *)
Definition load_config (py_int : string -> option Z) (environ : gmap string string)
  : option Config :=
  let api_key := environ_get environ "GCSE_API_KEY" in
  let cx := environ_get environ "GCSE_CX" in
  let recipient := environ_get environ "RECIPIENT_EMAIL" in
  let sender := environ_get environ "SENDER_EMAIL" in
  let smtp_host := default "smtp.gmail.com" (environ !! "SMTP_HOST") in
  smtp_port ← match environ !! "SMTP_PORT" with
              | Some s => py_int s
              | None => Some 587
              end;
  let smtp_user := default sender (PStr <$> environ !! "SMTP_USER") in
  let smtp_pass := environ_get environ "SMTP_PASS" in
  let top_startups_env := default "" (environ !! "TOP_STARTUPS") in
  let top_startups := stripped_nonempty (split_comma top_startups_env) in
  Some {| API_KEY := api_key;
          CX := cx;
          RECIPIENT := recipient;
          SENDER := sender;
          SMTP_HOST := smtp_host;
          SMTP_PORT := smtp_port;
          SMTP_USER := smtp_user;
          SMTP_PASS := smtp_pass;
          TOP_STARTUPS := top_startups |}.


Definition sample_environ : gmap string string :=
  {[ "GCSE_API_KEY" := "k"; "GCSE_CX" := "cx";
     "RECIPIENT_EMAIL" := "to@example.org"; "SENDER_EMAIL" := "from@example.org";
     "SMTP_PASS" := "secret";
     "TOP_STARTUPS" := " stripe.com, Acme ,, ,notion.so" ]}.

(** [int(...)] on the few texts the samples use. *)
Definition sample_int (s : string) : option Z :=
  if String.eqb s "587" then Some 587
  else if String.eqb s "465" then Some 465
  else None.


(** What [sample_environ] loads to. *)
Definition loaded_sample : Config :=
  {| API_KEY := PStr "k";
     CX := PStr "cx";
     RECIPIENT := PStr "to@example.org";
     SENDER := PStr "from@example.org";
     SMTP_HOST := "smtp.gmail.com";
     SMTP_PORT := 587;
     SMTP_USER := PStr "from@example.org";
     SMTP_PASS := PStr "secret";
     TOP_STARTUPS := ["stripe.com"; "Acme"; "notion.so"] |}.

(* ===================================================================== *)
(** * Notions for the traces of a run                                    *)
(* ===================================================================== *)

Definition is_request (ev : event) : bool :=
  match ev with
  | EvHttpGet _ _ _ _ => true
  | _ => false
  end.

Definition is_smtp (ev : event) : bool :=
  match ev with
  | EvSmtp _ _ => true
  | _ => false
  end.

(** The number of HTTP requests of a trace. *)
Definition count_requests (tr : list event) : nat :=
  length (List.filter is_request tr).

(** The request [google_search] sends for a query of the aggregation. *)
Definition role_request (cfg : Config) (q : string) (reply : http_reply) : event :=
  EvHttpGet search_url (search_params_of cfg q MAX_PER_ROLE) 20 reply.

Definition search_error_line (q msg : string) : event :=
  EvPrint ["Search error for query:"; q; msg].

(** A response that passes [raise_for_status] and decodes. *)
Definition reply_returned (reply : http_reply) : Prop :=
  exists (resp : http_response) (js : search_json),
    reply = HttpReturned resp /\ http_error resp = None /\ http_body_of resp = BodyJson js.

(** The traces the loop over the queries of a role can leave, query by
    query: a call that raised before any request and its log line; a
    failed request and its log line; a request that returned, and the
    pause; or a last request, at which the loop ended. *)
Inductive role_trace (cfg : Config) : list string -> list event -> Prop :=
| rt_end :
    role_trace cfg [] []
| rt_unsent (q : string) (qs : list string) (msg : string) (tr : list event) :
    truthy (API_KEY cfg) && truthy (CX cfg) = false ->
    role_trace cfg qs tr ->
    role_trace cfg (q :: qs) (search_error_line q msg :: tr)
| rt_failed (q : string) (qs : list string) (reply : http_reply) (e : exn) (tr : list event) :
    search_fails reply e ->
    role_trace cfg qs tr ->
    role_trace cfg (q :: qs) (role_request cfg q reply :: search_error_line q (exn_msg e) :: tr)
| rt_paused (q : string) (qs : list string) (reply : http_reply) (tr : list event) :
    reply_returned reply ->
    role_trace cfg qs tr ->
    role_trace cfg (q :: qs) (role_request cfg q reply :: EvSleep 400 :: tr)
| rt_stopped (q : string) (qs : list string) (reply : http_reply) :
    role_trace cfg (q :: qs) [role_request cfg q reply].

(** The queries of the requests of a trace, in order. *)
Fixpoint requested_queries (tr : list event) : list string :=
  match tr with
  | [] => []
  | EvHttpGet _ params _ _ :: tr' => p_q params :: requested_queries tr'
  | _ :: tr' => requested_queries tr'
  end.

(** A request of the aggregation for one of the queries of [roles]. *)
Definition request_of_roles (cfg : Config) (roles : list string) (ev : event) : Prop :=
  match ev with
  | EvHttpGet url params timeout _ =>
      url = search_url /\ timeout = 20 /\
      exists (role q : string),
        role ∈ roles /\ q ∈ build_queries cfg role /\
        params = search_params_of cfg q MAX_PER_ROLE
  | EvSmtp _ _ => False
  | _ => True
  end.

Fixpoint concat_str (parts : list string) : string :=
  match parts with
  | [] => ""
  | part :: rest => part +:+ concat_str rest
  end.

(** A hit with a title and no link, one with a link only, one with
    neither. *)
Definition titled_unlinked_hit : item := {[ "title" := PStr "Engineer" ]}.
Definition linked_hit_with_markup : item :=
  hit "Job" "https://z.example/<li>" "text".
(* ===================================================================== *)
(** * First-seen order                                                   *)
(* ===================================================================== *)

#[global] Instance result_eq_dec {A : Type} `{EqDecision A} : EqDecision (result A).
Proof. solve_decision. Defined.

(** Of a list, the first element of each key, in the order of the list;
    [known] holds the keys met before the list. *)
Fixpoint first_by {A K : Type} `{EqDecision K} (key : A -> K) (known : list K) (l : list A)
  : list A :=
  match l with
  | [] => []
  | x :: rest =>
      if bool_decide (key x ∈ known) then first_by key known rest
      else x :: first_by key (key x :: known) rest
  end.

(** The result list the specification describes for a stream of returned
    items: the first item of each dedup key, in first-seen order. *)
Definition first_seen (stream : list item) : list item :=
  first_by item_key [] stream.

(** The keys of [seen] are the keys of the items met so far. *)
Definition keys_known (known : list (result pyval)) (sn : gmap pyval bool) : Prop :=
  forall k : pyval, is_Some (sn !! k) <-> Ok k ∈ known.

(** A hit without a link whose title is the address of another hit. *)
Definition headline_hit : item := {[ "title" := PStr "https://a.example/1" ]}.

(** One search returning the hit without link, then the hit with the
    link. *)
Definition collision_state : @state scripted :=
  @initial_state scripted
    {| http_replies := [ok_reply [headline_hit; hit_a]]; smtp_outcomes := [] |}.


(* ===================================================================== *)
(** * Strings                                                            *)
(* ===================================================================== *)

Lemma app_str_cons (x : ascii) (a b : string) : String x a +:+ b = String x (a +:+ b).
Proof. reflexivity. Qed.

Lemma app_str_nil_l (a : string) : "" +:+ a = a.
Proof. reflexivity. Qed.

Lemma app_str_assoc (a b c : string) : (a +:+ b) +:+ c = a +:+ (b +:+ c).
Proof.
  induction a as [|x a IH]; [done|].
  by rewrite !app_str_cons, IH.
Qed.

Lemma app_str_nil_r (a : string) : a +:+ "" = a.
Proof.
  induction a as [|x a IH]; [done|].
  by rewrite app_str_cons, IH.
Qed.

(* ===================================================================== *)
(** * Query builder                                                      *)
(* ===================================================================== *)

Lemma prefix_empty (s : string) : String.prefix "" s = true.
Proof. by destruct s. Qed.

Lemma str_in_dot (d : string) : str_in "." d = has_dot d.
Proof.
  unfold has_dot. induction d as [|a d IH].
  - done.
  - cbn [str_in String.prefix String.list_ascii_of_string].
    rewrite IH, prefix_empty.
    destruct (ascii_dec "." a) as [<-|Hne].
    + cbn. symmetry. apply bool_decide_eq_true. left.
    + cbn [orb]. apply bool_decide_ext. rewrite elem_of_cons.
      split; [by right | by intros [?|?]].
Qed.

Lemma org_queries_loop_spec (role : string) (ds queries : list string) :
  org_queries_loop role ds queries = queries ++ map (org_query role) ds.
Proof.
  revert queries. induction ds as [|d ds IH]; intros queries; cbn [org_queries_loop map].
  - by rewrite app_nil_r.
  - rewrite IH. unfold org_query. rewrite str_in_dot.
    destruct (has_dot d); by rewrite <- app_assoc.
Qed.

(** C3. For every role and every configured list of target organizations
    the query builder returns one query per organization, in order
    ([role site:org] when the organization contains a dot, [role "org"]
    otherwise), followed by the three generic queries in their fixed
    order. *)
Theorem build_queries_spec (cfg : Config) (role : string) :
  build_queries cfg role
  = map (org_query role) (TOP_STARTUPS cfg) ++ generic_queries role.
Proof.
  unfold build_queries, generic_queries.
  destruct (TOP_STARTUPS cfg) as [|d ds] eqn:E.
  - reflexivity.
  - rewrite org_queries_loop_spec. cbn [app].
    by rewrite <- !app_assoc.
Qed.

Example build_queries_sample :
  build_queries sample_config "Backend Developer"
  = [ "Backend Developer site:stripe.com";
      "Backend Developer " +:+ quoted "Acme";
      "Backend Developer startup hiring";
      "Backend Developer " +:+ quoted "we are hiring";
      "Backend Developer " +:+ quoted "hiring now" ].
Proof. reflexivity. Qed.

(* ===================================================================== *)
(** * Search responses and dedup keys                                    *)
(* ===================================================================== *)

Lemma extract_loop_spec (hits items : list item) :
  extract_loop hits items = items ++ map extract_item hits.
Proof.
  revert items. induction hits as [|it hits IH]; intros items; cbn [extract_loop map].
  - by rewrite app_nil_r.
  - by rewrite IH, <- app_assoc.
Qed.

Lemma extract_item_title (raw : item) :
  extract_item raw !! "title" = Some (dict_get raw "title").
Proof. unfold extract_item. by simplify_map_eq. Qed.

Lemma extract_item_link (raw : item) :
  extract_item raw !! "link" = Some (dict_get raw "link").
Proof. unfold extract_item. by simplify_map_eq. Qed.

Lemma extract_item_snippet (raw : item) :
  extract_item raw !! "snippet" = Some (dict_get_default raw "snippet" (PStr "")).
Proof. unfold extract_item. by simplify_map_eq. Qed.

Lemma dict_get_extract_link (raw : item) :
  dict_get (extract_item raw) "link" = dict_get raw "link".
Proof. unfold dict_get at 1. by rewrite extract_item_link. Qed.

Lemma dict_get_default_extract_title (raw : item) (dflt : pyval) :
  dict_get_default (extract_item raw) "title" dflt = dict_get raw "title".
Proof. unfold dict_get_default. by rewrite extract_item_title. Qed.

Lemma dict_get_default_extract_snippet (raw : item) (dflt : pyval) :
  dict_get_default (extract_item raw) "snippet" dflt
  = dict_get_default raw "snippet" (PStr "").
Proof. unfold dict_get_default at 1. by rewrite extract_item_snippet. Qed.

Lemma item_key_link (it : item) (l : string) :
  dict_get it "link" = PStr l -> l <> "" -> item_key it = Ok (PStr l).
Proof.
  intros E Hl. unfold item_key. rewrite E. cbn [truthy].
  destruct (String.eqb_spec l ""); [done|]. done.
Qed.

Lemma item_key_fallback (it : item) (t s : string) :
  truthy (dict_get it "link") = false ->
  dict_get_default it "title" (PStr "") = PStr t ->
  dict_get_default it "snippet" (PStr "") = PStr s ->
  item_key it = Ok (PStr (t +:+ s)).
Proof. intros E Et Es. unfold item_key. by rewrite E, Et, Es. Qed.

(** C4, the case the code misses.  A result item built by [extract_items]
    always has the key [title], holding [None] when the hit had no title;
    so [it.get("title", "")] does not reach its default and, when the link
    is absent or empty as well, the key expression adds [None] to a string
    and raises a [TypeError] instead of giving title plus snippet. *)
Theorem item_key_absent_title_raises (raw : item) :
  truthy (dict_get raw "link") = false ->
  dict_get raw "title" = PNone ->
  exists e : exn, item_key (extract_item raw) = Raise e /\ exn_cls e = TypeError.
Proof.
  intros El Et. unfold item_key.
  rewrite dict_get_extract_link, El, dict_get_default_extract_title, Et.
  destruct (dict_get_default (extract_item raw) "snippet" (PStr "")); cbn [py_add]; eauto.
Qed.

Lemma item_key_absent_title_raises_witness :
  exists e : exn,
    item_key (extract_item hit_without_title_and_link) = Raise e /\ exn_cls e = TypeError.
Proof.
  apply (item_key_absent_title_raises hit_without_title_and_link); reflexivity.
Defined.

(* ===================================================================== *)
(** * The aggregation loops, step by step                                *)
(* ===================================================================== *)

Section Aggregation.
Context `{Env}.

Lemma scan_items_nil (st : state) : scan_items [] st = (Ok tt, st).
Proof. reflexivity. Qed.

Lemma scan_items_cons (it : item) (rest : list item) (st : state) :
  scan_items (it :: rest) st =
  match item_key it with
  | Raise e => (Raise e, st)
  | Ok key =>
      if bool_decide (is_Some (seen st !! key)) then scan_items rest st
      else if MAX_PER_ROLE <=? Z.of_nat (length (collected st ++ [it]))
           then (Ok tt, record_item key it st)
           else scan_items rest (record_item key it st)
  end.
Proof.
  cbn [scan_items]. unfold mbind, M_bind, lift, gets, modify.
  destruct (item_key it) as [key|e]; [|done].
  destruct (bool_decide (is_Some (seen st !! key))); [done|].
  cbn. by destruct (MAX_PER_ROLE <=? _).
Qed.

Lemma dedup_inv_empty : dedup_inv [] ∅ [].
Proof.
  split.
  - constructor.
  - intros x k Hx. by apply elem_of_nil in Hx.
  - intros x Hx. by apply elem_of_nil in Hx.
  - intros k [v Hv]. by rewrite lookup_empty in Hv.
  - intros it Hx. by apply elem_of_nil in Hx.
  - constructor.
Qed.

(** An item whose key has been seen is skipped. *)
Lemma dedup_inv_skip (P : list item) (sn : gmap pyval bool) (c : list item)
    (it : item) (key : pyval) :
  dedup_inv P sn c -> item_key it = Ok key -> is_Some (sn !! key) ->
  dedup_inv (P ++ [it]) sn c.
Proof.
  intros [Hsub Hseen Hkeys Hkept Hfirst Hnd] Hk Hin. split.
  - by apply sublist_inserts_r.
  - intros x k Hx Hxk. apply elem_of_app in Hx as [Hx|Hx]; [by eapply Hseen|].
    apply list_elem_of_singleton in Hx as ->. congruence.
  - intros x Hx. apply elem_of_app in Hx as [Hx|Hx]; [by apply Hkeys|].
    apply list_elem_of_singleton in Hx as ->. eauto.
  - done.
  - intros it0 Hit0. destruct (Hfirst it0 Hit0) as (k & pre & post & Hk0 & -> & Hpre).
    exists k, pre, (post ++ [it]). split; [done|]. split; [|done].
    by rewrite <- app_assoc.
  - done.
Qed.

(** An item with a new key is recorded and appended. *)
Lemma dedup_inv_record (P : list item) (sn : gmap pyval bool) (c : list item)
    (it : item) (key : pyval) :
  dedup_inv P sn c -> item_key it = Ok key -> ~ is_Some (sn !! key) ->
  dedup_inv (P ++ [it]) (<[key := true]> sn) (c ++ [it]).
Proof.
  intros [Hsub Hseen Hkeys Hkept Hfirst Hnd] Hk Hnew.
  assert (Hfresh : forall x : item, x ∈ P -> item_key x <> Ok key).
  { intros x Hx Hxk. apply Hnew. by eapply Hseen. }
  split.
  - by apply sublist_app.
  - intros x k Hx Hxk. apply lookup_insert_is_Some.
    apply elem_of_app in Hx as [Hx|Hx].
    + destruct (decide (key = k)); [by left|]. right. split; [done|]. by eapply Hseen.
    + apply list_elem_of_singleton in Hx as ->. left. congruence.
  - intros x Hx. apply elem_of_app in Hx as [Hx|Hx]; [by apply Hkeys|].
    apply list_elem_of_singleton in Hx as ->. eauto.
  - intros k Hsome. apply lookup_insert_is_Some in Hsome as [<-|[_ Hsome]].
    + exists it. split; [|done]. apply elem_of_app. right. by apply list_elem_of_singleton.
    + destruct (Hkept k Hsome) as (it0 & Hit0 & Hk0).
      exists it0. split; [|done]. apply elem_of_app. by left.
  - intros it0 Hit0. apply elem_of_app in Hit0 as [Hit0|Hit0].
    + destruct (Hfirst it0 Hit0) as (k & pre & post & Hk0 & -> & Hpre).
      exists k, pre, (post ++ [it]). split; [done|]. split; [|done].
      by rewrite <- app_assoc.
    + apply list_elem_of_singleton in Hit0 as ->.
      exists key, P, []. split; [done|]. split; [done|]. exact Hfresh.
  - rewrite map_app. apply NoDup_app. split; [done|]. split; [|apply NoDup_singleton].
    intros r Hr Hr'. apply list_elem_of_singleton in Hr' as ->.
    apply list_elem_of_fmap in Hr as (x & Hxk & Hx).
    apply (Hfresh x); [by eapply elem_of_sublist | congruence].
Qed.

(** What one run of the inner loop does: it consumes a prefix of the
    items, keeps the invariant and the cap, touches nothing but [seen]
    and [collected], and leaves items unprocessed only when it raised or
    reached the cap. *)
Lemma scan_items_inv (items : list item) :
  forall (P : list item) (st : state),
    dedup_inv P (seen st) (collected st) -> below_cap st ->
    exists consumed rest : list item,
      items = consumed ++ rest /\
      dedup_inv (P ++ consumed) (seen (scan_items items st).2)
                (collected (scan_items items st).2) /\
      within_cap (scan_items items st).2 /\
      world (scan_items items st).2 = world st /\
      trace (scan_items items st).2 = trace st /\
      results (scan_items items st).2 = results st /\
      (rest = [] \/ (exists e, (scan_items items st).1 = Raise e) \/
       MAX_PER_ROLE <= Z.of_nat (length (collected (scan_items items st).2))) /\
      (forall e, (scan_items items st).1 = Raise e -> below_cap (scan_items items st).2).
Proof.
  induction items as [|it items IH]; intros P st Hinv Hcap.
  - exists [], []. rewrite scan_items_nil. cbn [fst snd].
    unfold within_cap, below_cap in *.
    split_and!; try done; [by rewrite app_nil_r | lia | by left].
  - rewrite scan_items_cons.
    destruct (item_key it) as [key|e] eqn:Hk.
    + case_bool_decide as Hin.
      * destruct (IH (P ++ [it]) st) as (consumed & rest & -> & Hinv' & Hrest);
          [by eapply dedup_inv_skip | done |].
        exists (it :: consumed), rest. split; [done|].
        rewrite <- app_assoc in Hinv'. done.
      * assert (Hinv1 : dedup_inv (P ++ [it]) (seen (record_item key it st))
                          (collected (record_item key it st))).
        { cbn. by apply dedup_inv_record. }
        destruct (Z.leb_spec MAX_PER_ROLE (Z.of_nat (length (collected st ++ [it]))))
          as [Hfull|Hroom].
        -- exists [it], items. cbn [fst snd].
           unfold within_cap, below_cap in *. cbn in Hfull |- *.
           rewrite length_app in *. cbn [length] in *.
           split_and!; try done; [lia | right; right; lia].
        -- destruct (IH (P ++ [it]) (record_item key it st))
             as (consumed & rest & -> & Hinv' & Hrest); [done | exact Hroom |].
           exists (it :: consumed), rest. split; [done|].
           rewrite <- app_assoc in Hinv'. done.
    + exists [], (it :: items). cbn [fst snd].
      unfold within_cap, below_cap in *.
      split_and!; try done; [by rewrite app_nil_r | lia | right; left; eauto].
Qed.


(** Past the cap the inner loop looks at no further item. *)
Lemma scan_items_stops (items : list item) :
  forall (st : state) (more : list item),
    below_cap st ->
    MAX_PER_ROLE <= Z.of_nat (length (collected (scan_items items st).2)) ->
    scan_items (items ++ more) st = scan_items items st.
Proof.
  induction items as [|it items IH]; intros st more Hcap Hfull.
  - rewrite scan_items_nil in Hfull. unfold below_cap in Hcap. cbn in Hfull. lia.
  - rewrite <- app_comm_cons, !scan_items_cons.
    rewrite scan_items_cons in Hfull.
    destruct (item_key it) as [key|e]; [|done].
    case_bool_decide; [by apply IH|].
    destruct (Z.leb_spec MAX_PER_ROLE (Z.of_nat (length (collected st ++ [it]))));
      [done|]. by apply IH.
Qed.

(** ** The search client, as the loop sees it *)

Lemma google_search_unfold (cfg : Config) (q : string) (num : Z) (st : state) :
  google_search cfg q num st =
  if negb (truthy (API_KEY cfg) && truthy (CX cfg)) then
    (Raise (Exn RuntimeError "GCSE_API_KEY and GCSE_CX environment variables are required."), st)
  else
    let params := search_params_of cfg q num in
    let reply := (requests_get search_url params 20 (world st)).1 in
    let w := (requests_get search_url params 20 (world st)).2 in
    let st' := log_event (EvHttpGet search_url params 20 reply) (set_world w st) in
    match reply with
    | HttpRaised e => (Raise e, st')
    | HttpReturned resp =>
        (match raise_for_status resp with
         | Ok _ => response_json resp
         | Raise e => Raise e
         end, st')
    end.
Proof.
  unfold google_search, search_params_of, search_url.
  destruct (negb _); [done|].
  unfold mbind, M_bind, http_get, lift. cbn zeta.
  destruct (requests_get _ _ _ _) as [[e|resp] w]; cbn [fst snd]; [done|].
  by destruct (raise_for_status resp).
Qed.

Lemma returned_items_app (tr1 tr2 : list event) :
  returned_items (tr1 ++ tr2) = returned_items tr1 ++ returned_items tr2.
Proof. unfold returned_items. by rewrite map_app, concat_app. Qed.

(** A search call leaves the locals alone and adds at most one event, the
    HTTP request, whose items are the ones it returns. *)
Lemma google_search_effect (cfg : Config) (q : string) (num : Z) (st : state) :
  seen (google_search cfg q num st).2 = seen st /\
  collected (google_search cfg q num st).2 = collected st /\
  results (google_search cfg q num st).2 = results st /\
  exists new : list event,
    trace (google_search cfg q num st).2 = trace st ++ new /\
    returned_items new = search_items (google_search cfg q num st).1 /\
    (forall js, (google_search cfg q num st).1 = Ok js ->
       exists reply, new = [EvHttpGet search_url (search_params_of cfg q num) 20 reply]).
Proof.
  rewrite google_search_unfold.
  destruct (negb _).
  - cbn. split_and!; try done. exists []. by rewrite app_nil_r.
  - cbn zeta. destruct (requests_get _ _ _ _) as [[e|resp] w]; cbn [fst snd].
    + split_and!; try done. eexists. split; [reflexivity|]. done.
    + split_and!; try done. eexists. split; [reflexivity|].
      unfold returned_items. cbn [map concat event_items reply_items].
      rewrite app_nil_r.
      destruct (raise_for_status resp); [|done].
      destruct (response_json resp); cbn [search_items]; [|done].
      split; [done|]. intros js' _. eauto.
Qed.

Lemma try_google_search (cfg : Config) (q : string) (num : Z) (st : state) :
  try_ (google_search cfg q num) st
  = (Ok (google_search cfg q num st).1, (google_search cfg q num st).2).
Proof. unfold try_. by destruct (google_search cfg q num st). Qed.

Lemma run_queries_nil (cfg : Config) (st : state) : run_queries cfg [] st = (Ok tt, st).
Proof. reflexivity. Qed.

Lemma run_queries_cons (cfg : Config) (q : string) (rest : list string) (st : state) :
  run_queries cfg (q :: rest) st =
  let st1 := (google_search cfg q MAX_PER_ROLE st).2 in
  match (google_search cfg q MAX_PER_ROLE st).1 with
  | Raise e =>
      if is_Exception e then
        run_queries cfg rest
          (log_event (EvPrint ["Search error for query:"; q; exn_msg e]) st1)
      else (Raise e, st1)
  | Ok js =>
      match extract_items js with
      | Raise e => (Raise e, st1)
      | Ok items =>
          let st2 := (scan_items items st1).2 in
          match (scan_items items st1).1 with
          | Raise e => (Raise e, st2)
          | Ok _ =>
              if MAX_PER_ROLE <=? Z.of_nat (length (collected st2)) then (Ok tt, st2)
              else run_queries cfg rest (log_event (EvSleep 400) st2)
          end
      end
  end.
Proof.
  cbn [run_queries]. unfold mbind at 1. unfold M_bind at 1.
  rewrite try_google_search. cbn zeta.
  destruct (google_search cfg q MAX_PER_ROLE st) as [[js|e] st1]; cbn [fst snd].
  - unfold mbind, M_bind, lift, gets.
    destruct (extract_items js) as [items|e]; [|done].
    destruct (scan_items items st1) as [[[]|e] st2]; cbn [fst snd]; [|done].
    by destruct (MAX_PER_ROLE <=? _).
  - by destruct (is_Exception e).
Qed.


Lemma returned_items_print (args : list string) : returned_items [EvPrint args] = [].
Proof. reflexivity. Qed.

Lemma returned_items_sleep (ms : Z) : returned_items [EvSleep ms] = [].
Proof. reflexivity. Qed.

(** What the loop over the queries of a role does.  [new] is what it adds
    to the trace; the items its searches returned split into the ones the
    loop processed, [consumed], and the ones left when it stopped. *)
Lemma run_queries_inv (cfg : Config) (queries : list string) :
  forall (P : list item) (st : state),
    dedup_inv P (seen st) (collected st) -> below_cap st ->
    exists (new : list event) (consumed left_over : list item),
      trace (run_queries cfg queries st).2 = trace st ++ new /\
      returned_items new = consumed ++ left_over /\
      dedup_inv (P ++ consumed) (seen (run_queries cfg queries st).2)
                (collected (run_queries cfg queries st).2) /\
      within_cap (run_queries cfg queries st).2 /\
      results (run_queries cfg queries st).2 = results st /\
      (MAX_PER_ROLE <= Z.of_nat (length (collected (run_queries cfg queries st).2)) ->
       exists (pre : list event) (ev : event), new = pre ++ [ev] /\ is_http_get ev) /\
      ((run_queries cfg queries st).1 = Ok tt ->
       below_cap (run_queries cfg queries st).2 -> left_over = []).
Proof.
  induction queries as [|q queries IH]; intros P st Hinv Hcap.
  - exists [], [], []. rewrite run_queries_nil. cbn [fst snd].
    unfold within_cap, below_cap in *. rewrite !app_nil_r.
    split_and!; try done; lia.
  - rewrite run_queries_cons. cbn zeta.
    destruct (google_search_effect cfg q MAX_PER_ROLE st)
      as (Hs & Hc & Hr & new1 & Ht & Hret & Hget).
    destruct (google_search cfg q MAX_PER_ROLE st) as [[js|e] st1]; cbn [fst snd] in *.
    + destruct (Hget js eq_refl) as [reply ->]. clear Hget.
      cbn [search_items] in Hret.
      destruct (extract_items js) as [items|e] eqn:Hex.
      * destruct (scan_items_inv items P st1)
          as (consumed & rest & -> & Hinv' & Hcap' & Hw & Htr & Hres & Hrest & Hraise).
        { by rewrite Hs, Hc. }
        { unfold below_cap. by rewrite Hc. }
        destruct (scan_items (consumed ++ rest) st1) as [[[]|e] st2]; cbn [fst snd] in *.
        -- destruct (Z.leb_spec MAX_PER_ROLE (Z.of_nat (length (collected st2))))
             as [Hfull|Hroom].
           ++ eexists _, consumed, rest. cbn [fst snd].
              rewrite Htr, Ht, Hret, Hres, Hr. split_and!; try done.
              ** intros _. eexists [], _. split; [reflexivity|]. done.
              ** intros _ Hbelow. unfold below_cap in Hbelow. lia.
           ++ destruct Hrest as [->|[[e He]|Hfull]]; [|done|lia].
              rewrite app_nil_r in *.
              destruct (IH (P ++ consumed) (log_event (EvSleep 400) st2))
                as (new' & consumed' & R & Ht' & Hret' & Hinv'' & Hcap'' & Hres' & Hlast & Hall);
                [done | exact Hroom |].
              exists ([EvHttpGet search_url (search_params_of cfg q MAX_PER_ROLE) 20 reply]
                        ++ [EvSleep 400] ++ new'), (consumed ++ consumed'), R.
              rewrite Ht', Hres'. cbn [trace log_event results].
              rewrite Htr, Ht, Hres, Hr.
              rewrite (returned_items_app [_] ([_] ++ new')), Hret.
              rewrite (returned_items_app [_] new'), Hret', returned_items_sleep.
              rewrite <- !app_assoc in *. cbn [app]. split_and!; try done.
              intros Hfull. destruct (Hlast Hfull) as (pre & ev & -> & Hev).
              eexists (_ :: _ :: pre), ev. done.
        -- eexists _, consumed, rest. cbn [fst snd]. rewrite Htr, Ht, Hret, Hres, Hr.
           split_and!; try done.
           intros Hfull. specialize (Hraise e eq_refl). unfold below_cap in Hraise. lia.
      * eexists _, [], []. cbn [fst snd]. rewrite Ht, Hret, Hs, Hc, Hr, !app_nil_r.
        unfold within_cap, below_cap in *. rewrite Hc.
        split_and!; try done; lia.
    + clear Hget. cbn [search_items] in Hret.
      destruct (is_Exception e).
      * destruct (IH P (log_event (EvPrint ["Search error for query:"; q; exn_msg e]) st1))
          as (new' & consumed' & R & Ht' & Hret' & Hinv'' & Hcap'' & Hres' & Hlast & Hall).
        { cbn. by rewrite Hs, Hc. }
        { unfold below_cap. cbn. by rewrite Hc. }
        eexists (new1 ++ [EvPrint _] ++ new'), consumed', R.
        rewrite Ht', Hres'. cbn [trace log_event results].
        rewrite Ht, Hr, (returned_items_app new1), Hret.
        rewrite (returned_items_app [_] new'), Hret', returned_items_print.
        rewrite <- !app_assoc. cbn [app]. split_and!; try done.
        intros Hfull. destruct (Hlast Hfull) as (pre & ev & -> & Hev).
        exists (new1 ++ EvPrint ["Search error for query:"; q; exn_msg e] :: pre), ev.
        by rewrite <- app_assoc.
      * exists new1, [], []. cbn [fst snd]. rewrite Hs, Hc, Hr, !app_nil_r.
        unfold within_cap, below_cap in *. rewrite Hc.
        split_and!; try done; lia.
Qed.

End Aggregation.

(* ===================================================================== *)
(** * The aggregated result list of a role                               *)
(* ===================================================================== *)

Section RoleResults.
Context `{Env}.

Lemma collect_role_unfold (cfg : Config) (role : string) (st : state) :
  collect_role cfg role st =
  let st0 := set_collected [] (set_seen ∅ st) in
  let st1 := (run_queries cfg (build_queries cfg role) st0).2 in
  match (run_queries cfg (build_queries cfg role) st0).1 with
  | Ok _ => (Ok tt, set_results (dict_set (results st1) role (collected st1)) st1)
  | Raise e => (Raise e, st1)
  end.
Proof.
  unfold collect_role, mbind, M_bind, modify, gets. cbn zeta.
  by destruct (run_queries _ _ _) as [[[]|e] st1].
Qed.

Lemma dict_lookup_set {V : Type} (d : list (string * V)) (k : string) (v : V) :
  dict_lookup (dict_set d k v) k = Some v.
Proof.
  induction d as [|[k' v'] d IH]; cbn.
  - by rewrite String.eqb_refl.
  - destruct (String.eqb k' k) eqn:E; cbn; [by rewrite String.eqb_refl|].
    by rewrite E.
Qed.

Lemma filter_same_key {A B : Type} (f : A -> B) (Q : A -> Prop)
    `{!forall x, Decision (Q x)} (k : B) (c : list A) :
  NoDup (map f c) -> (forall x, Q x -> f x = k) ->
  (length (filter Q c) <= 1)%nat.
Proof.
  intros Hnd HQ. induction c as [|x c IH]; [cbn; lia|].
  cbn [map] in Hnd. apply NoDup_cons in Hnd as [Hx Hnd].
  rewrite filter_cons. destruct (decide (Q x)) as [Hq|Hq]; [|by apply IH].
  destruct (filter Q c) as [|y ys] eqn:E; [cbn; lia|].
  exfalso. apply Hx.
  assert (Hy : y ∈ filter Q c) by (rewrite E; left).
  apply list_elem_of_filter in Hy as [Hqy Hy].
  apply list_elem_of_fmap. exists y. split; [|done].
  by rewrite (HQ x Hq), (HQ y Hqy).
Qed.

(** The facts about one role from which the properties of the
    aggregator follow. *)
Lemma collect_role_inv (cfg : Config) (role : string) (st : state) :
  exists (new : list event) (consumed left_over : list item),
    trace (collect_role cfg role st).2 = trace st ++ new /\
    returned_items new = consumed ++ left_over /\
    dedup_inv consumed (seen (collect_role cfg role st).2)
              (collected (collect_role cfg role st).2) /\
    within_cap (collect_role cfg role st).2 /\
    (MAX_PER_ROLE <= Z.of_nat (length (collected (collect_role cfg role st).2)) ->
     exists (pre : list event) (ev : event), new = pre ++ [ev] /\ is_http_get ev) /\
    ((collect_role cfg role st).1 = Ok tt ->
     below_cap (collect_role cfg role st).2 -> left_over = []) /\
    match (collect_role cfg role st).1 with
    | Ok _ => results (collect_role cfg role st).2
              = dict_set (results st) role (collected (collect_role cfg role st).2)
    | Raise _ => results (collect_role cfg role st).2 = results st
    end.
Proof.
  rewrite collect_role_unfold. cbn zeta.
  destruct (run_queries_inv cfg (build_queries cfg role) [] (set_collected [] (set_seen ∅ st)))
    as (new & consumed & R & Ht & Hret & Hinv & Hcap & Hres & Hlast & Hall).
  { cbn. apply dedup_inv_empty. }
  { unfold below_cap. cbn. unfold MAX_PER_ROLE. lia. }
  exists new, consumed, R.
  destruct (run_queries _ _ _) as [[[]|e] st1]; cbn [fst snd] in *;
    unfold within_cap, below_cap in *; cbn [collected set_results trace seen results] in *;
    rewrite ?Hres; split_and!; done.
Qed.

End RoleResults.

(* ===================================================================== *)
(** * Aggregator: deduplication, order, cap, failed searches             *)
(* ===================================================================== *)

(** [first_by] looks at [known] as a set. *)
Lemma first_by_ext {A K : Type} `{EqDecision K} (key : A -> K) (l : list A) :
  forall known known' : list K,
    (forall k : K, k ∈ known <-> k ∈ known') ->
    first_by key known l = first_by key known' l.
Proof.
  induction l as [|x l IH]; intros known known' Hext; [done|].
  cbn [first_by]. rewrite (bool_decide_ext _ _ (Hext (key x))).
  case_bool_decide; [by apply IH|].
  f_equal. apply IH. intros k. rewrite !elem_of_cons. by rewrite Hext.
Qed.

Lemma first_by_app {A K : Type} `{EqDecision K} (key : A -> K) (l1 l2 : list A) :
  forall known : list K,
    first_by key known (l1 ++ l2)
    = first_by key known l1 ++ first_by key (map key l1 ++ known) l2.
Proof.
  induction l1 as [|x l1 IH]; intros known; [done|].
  cbn [app first_by map]. case_bool_decide as Hin.
  - rewrite IH. f_equal. apply first_by_ext.
    intros k. rewrite elem_of_cons, !elem_of_app. intuition congruence.
  - rewrite IH. cbn [app]. do 2 f_equal. apply first_by_ext.
    intros k. rewrite !elem_of_cons, !elem_of_app, elem_of_cons. tauto.
Qed.

(** An element whose key was not met before it is kept. *)
Lemma first_by_keeps {A K : Type} `{EqDecision K} (key : A -> K)
    (known : list K) (pre : list A) (x : A) (post : list A) :
  key x ∉ known -> key x ∉ map key pre ->
  x ∈ first_by key known (pre ++ x :: post).
Proof.
  intros Hknown Hpre. rewrite first_by_app, elem_of_app. right.
  cbn [first_by]. rewrite bool_decide_false; [by left|].
  rewrite elem_of_app. tauto.
Qed.

Section AggregatorProperties.
Context `{Env}.

(** The inner loop appends, of the items it looks at, the first of each
    key not met before, and records their keys. *)
Lemma scan_items_order (items : list item) :
  forall (known : list (result pyval)) (st : state),
    keys_known known (seen st) ->
    exists consumed rest : list item,
      items = consumed ++ rest /\
      collected (scan_items items st).2
      = collected st ++ first_by item_key known consumed /\
      keys_known (map item_key consumed ++ known) (seen (scan_items items st).2) /\
      trace (scan_items items st).2 = trace st /\
      (rest = [] \/ (exists e, (scan_items items st).1 = Raise e) \/
       MAX_PER_ROLE <= Z.of_nat (length (collected (scan_items items st).2))).
Proof.
  induction items as [|it items IH]; intros known st Hknown.
  - exists [], []. rewrite scan_items_nil. cbn [fst snd first_by map app].
    rewrite app_nil_r. split_and!; try done. by left.
  - rewrite scan_items_cons.
    destruct (item_key it) as [key|e] eqn:Hk.
    + case_bool_decide as Hin.
      * destruct (IH known st Hknown) as (consumed & rest & -> & Hc & Hkn & Hrest).
        exists (it :: consumed), rest. split; [done|].
        cbn [first_by map app]. rewrite Hk.
        rewrite bool_decide_true by (by apply Hknown).
        split; [done|]. split; [|done].
        intros k. rewrite elem_of_cons, (Hkn k), !elem_of_app. split; [tauto|].
        intros [[= ->]|Hor]; [|done]. right. by apply Hknown.
      * assert (Hknown1 : keys_known (Ok key :: known) (seen (record_item key it st))).
        { intros k. cbn [seen record_item set_collected set_seen].
          rewrite lookup_insert_is_Some', elem_of_cons, (Hknown k).
          split; [intros [->|?]; tauto | intros [[= ->]|?]; tauto]. }
        assert (Hkeep : first_by item_key known [it] = [it]).
        { cbn [first_by]. rewrite Hk, bool_decide_false; [done|].
          intros Hin'. apply Hin. by apply Hknown. }
        destruct (Z.leb_spec MAX_PER_ROLE (Z.of_nat (length (collected st ++ [it]))))
          as [Hfull|Hroom].
        -- exists [it], items. cbn [fst snd]. rewrite Hkeep.
           cbn [collected record_item set_collected set_seen trace map app].
           rewrite Hk. split_and!; try done. right. by right.
        -- destruct (IH (Ok key :: known) (record_item key it st) Hknown1)
             as (consumed & rest & -> & Hc & Hkn & Htr & Hrest).
           exists (it :: consumed), rest. split; [done|]. split_and!.
           ++ rewrite Hc. cbn [collected record_item set_collected set_seen first_by].
              rewrite Hk, bool_decide_false by (intros Hin'; apply Hin; by apply Hknown).
              by rewrite <- app_assoc.
           ++ intros k. cbn [map app]. rewrite Hk.
              rewrite (Hkn k), !elem_of_cons, !elem_of_app, elem_of_cons. tauto.
           ++ exact Htr.
           ++ exact Hrest.
    + exists [], (it :: items). cbn [fst snd first_by map app].
      rewrite app_nil_r. split_and!; try done. right. left. eauto.
Qed.

(** The loop over the queries appends, of the items it looked at, the
    first of each key, in their order; when it ends normally it looked
    at every returned item, or the list is full. *)
Lemma run_queries_order (cfg : Config) (queries : list string) :
  forall (known : list (result pyval)) (st : state),
    keys_known known (seen st) ->
    exists (new : list event) (consumed left_over : list item),
      trace (run_queries cfg queries st).2 = trace st ++ new /\
      returned_items new = consumed ++ left_over /\
      collected (run_queries cfg queries st).2
      = collected st ++ first_by item_key known consumed /\
      ((run_queries cfg queries st).1 = Ok tt ->
       left_over = [] \/
       MAX_PER_ROLE <= Z.of_nat (length (collected (run_queries cfg queries st).2))).
Proof.
  induction queries as [|q queries IH]; intros known st Hknown.
  - exists [], [], []. rewrite run_queries_nil. cbn [fst snd first_by].
    rewrite !app_nil_r. split_and!; try done. by left.
  - rewrite run_queries_cons. cbn zeta.
    destruct (google_search_effect cfg q MAX_PER_ROLE st)
      as (Hs & Hc & Hr & new1 & Ht & Hret & Hget).
    destruct (google_search cfg q MAX_PER_ROLE st) as [[js|e] st1]; cbn [fst snd] in *.
    + destruct (Hget js eq_refl) as [reply ->]. clear Hget.
      cbn [search_items] in Hret.
      destruct (extract_items js) as [items|e] eqn:Hex.
      * destruct (scan_items_order items known st1)
          as (consumed & rest & -> & Hcol & Hkn & Htr & Hrest).
        { by rewrite Hs. }
        destruct (scan_items (consumed ++ rest) st1) as [[[]|e] st2]; cbn [fst snd] in *.
        -- destruct (Z.leb_spec MAX_PER_ROLE (Z.of_nat (length (collected st2))))
             as [Hfull|Hroom].
           ++ eexists _, consumed, rest. cbn [fst snd].
              rewrite Htr, Ht, Hret, Hcol, Hc. split_and!; try done.
              intros _. right. by rewrite <- Hc, <- Hcol.
           ++ destruct Hrest as [->|[[e He]|Hfull]]; [|done|lia].
              rewrite app_nil_r in *.
              destruct (IH (map item_key consumed ++ known) (log_event (EvSleep 400) st2))
                as (new' & consumed' & R & Ht' & Hret' & Hcol' & Hok); [done|].
              exists ([EvHttpGet search_url (search_params_of cfg q MAX_PER_ROLE) 20 reply]
                        ++ [EvSleep 400] ++ new'), (consumed ++ consumed'), R.
              rewrite Ht', Hcol'. cbn [trace log_event collected].
              rewrite Htr, Ht, Hcol, Hc.
              rewrite (returned_items_app [_] ([_] ++ new')), Hret.
              rewrite (returned_items_app [_] new'), Hret', returned_items_sleep.
              rewrite first_by_app.
              rewrite <- !app_assoc in *. cbn [app]. split_and!; try done.
              intros Hrun. destruct (Hok Hrun) as [->|Hfull]; [by left|].
              right. rewrite Hcol' in Hfull. cbn [collected log_event] in Hfull.
              by rewrite Hcol, Hc, <- app_assoc in Hfull.
        -- eexists _, consumed, rest. cbn [fst snd]. rewrite Htr, Ht, Hret, Hcol, Hc.
           split_and!; done.
      * eexists _, [], []. cbn [fst snd first_by]. rewrite Ht, Hret, Hc, !app_nil_r.
        split_and!; done.
    + clear Hget. cbn [search_items] in Hret.
      destruct (is_Exception e).
      * destruct (IH known (log_event (EvPrint ["Search error for query:"; q; exn_msg e]) st1))
          as (new' & consumed' & R & Ht' & Hret' & Hcol' & Hok).
        { cbn. by rewrite Hs. }
        eexists (new1 ++ [EvPrint _] ++ new'), consumed', R.
        rewrite Ht', Hcol'. cbn [trace log_event collected].
        rewrite Ht, Hc, (returned_items_app new1), Hret.
        rewrite (returned_items_app [_] new'), Hret', returned_items_print.
        rewrite <- !app_assoc. cbn [app]. split_and!; try done.
        intros Hrun. destruct (Hok Hrun) as [->|Hfull]; [by left|].
        right. rewrite Hcol' in Hfull. cbn [collected log_event] in Hfull.
        by rewrite Hc in Hfull.
      * exists new1, [], []. cbn [fst snd first_by]. rewrite Hc, !app_nil_r.
        split_and!; done.
Qed.

(** The list of a role is the first-seen list of the items the role
    looked at. *)
Lemma collect_role_order (cfg : Config) (role : string) (st : state) :
  exists (new : list event) (consumed left_over : list item),
    trace (collect_role cfg role st).2 = trace st ++ new /\
    returned_items new = consumed ++ left_over /\
    collected (collect_role cfg role st).2 = first_seen consumed /\
    ((collect_role cfg role st).1 = Ok tt ->
     left_over = [] \/
     MAX_PER_ROLE <= Z.of_nat (length (collected (collect_role cfg role st).2))).
Proof.
  rewrite collect_role_unfold. cbn zeta.
  destruct (run_queries_order cfg (build_queries cfg role) []
              (set_collected [] (set_seen ∅ st)))
    as (new & consumed & R & Ht & Hret & Hcol & Hok).
  { intros k. cbn. rewrite lookup_empty, elem_of_nil. split; [by intros [? ?]|done]. }
  exists new, consumed, R.
  destruct (run_queries cfg (build_queries cfg role) (set_collected [] (set_seen ∅ st)))
    as [[[]|e] st1]; cbn [fst snd] in *; split_and!; done.
Qed.

(** C1, as the code has it.  For every role, the items returned by the
    role's searches, in query order then item order, form a stream, and
    the role's result list is the first-seen list of the stream: of the
    items with one dedup key (the link when it is non-empty, else title
    plus snippet) the first, in the order of the stream, cut after 8
    items.  When the role ends normally the list is exactly that, and is
    what [results] holds for the role; when the role raises, the list is
    an initial part of it.  Hence the list is a subsequence of the
    stream, holds at most one item per non-empty link, and an item of the
    list with a non-empty link is the first item of the stream with that
    link.  When the role ends normally below the cap, an item is in the
    list whenever no earlier item of the stream has its key, and every
    returned item is represented in the list by an item with its key. *)
Theorem collect_role_first_seen (cfg : Config) (role : string) (st : state) :
  exists new : list event,
    trace (collect_role cfg role st).2 = trace st ++ new /\
    let c := collected (collect_role cfg role st).2 in
    let stream := returned_items new in
    ((collect_role cfg role st).1 = Ok tt ->
       dict_lookup (results (collect_role cfg role st).2) role = Some c) /\
    ((collect_role cfg role st).1 = Ok tt ->
       c = take (Z.to_nat MAX_PER_ROLE) (first_seen stream)) /\
    c `prefix_of` first_seen stream /\
    c `sublist_of` stream /\
    (forall l : string, l <> "" ->
       (length (filter (fun it : item => dict_get it "link" = PStr l) c) <= 1)%nat) /\
    (forall (it : item) (l : string),
       it ∈ c -> dict_get it "link" = PStr l -> l <> "" ->
       exists pre post : list item,
         stream = pre ++ it :: post /\
         forall x : item, x ∈ pre -> dict_get x "link" <> PStr l) /\
    ((collect_role cfg role st).1 = Ok tt -> below_cap (collect_role cfg role st).2 ->
       forall (pre : list item) (x : item) (post : list item),
         stream = pre ++ x :: post ->
         (forall y : item, y ∈ pre -> item_key y <> item_key x) ->
         x ∈ c) /\
    ((collect_role cfg role st).1 = Ok tt -> below_cap (collect_role cfg role st).2 ->
       forall x : item, x ∈ stream ->
       exists (k : pyval) (it : item), item_key x = Ok k /\ it ∈ c /\ item_key it = Ok k).
Proof.
  destruct (collect_role_inv cfg role st)
    as (new & consumed & R & Ht & Hret & [Hsub Hseen Hkeys Hkept Hfirst Hnd]
        & Hcap & Hlast & Hall & Hres).
  destruct (collect_role_order cfg role st) as (new' & consumed' & R' & Ht' & Hret' & Hcol & Hok).
  assert (new' = new) as -> by (rewrite Ht in Ht'; by apply app_inv_head in Ht').
  assert (Hpre : collected (collect_role cfg role st).2
                 `prefix_of` first_seen (returned_items new)).
  { rewrite Hret', Hcol. unfold first_seen. rewrite first_by_app. by eexists. }
  assert (Htake : (collect_role cfg role st).1 = Ok tt ->
                  collected (collect_role cfg role st).2
                  = take (Z.to_nat MAX_PER_ROLE) (first_seen (returned_items new))).
  { intros Hrun. unfold within_cap in Hcap. destruct (Hok Hrun) as [->|Hfull].
    - rewrite Hret', app_nil_r, <- Hcol. symmetry. apply take_ge. lia.
    - destruct Hpre as [more Hmore]. rewrite Hmore. symmetry.
      apply take_app_length'. lia. }
  exists new. split; [done|]. cbn zeta. split_and!.
  - intros Hrun. rewrite Hrun in Hres. rewrite Hres. apply dict_lookup_set.
  - exact Htake.
  - exact Hpre.
  - rewrite Hret. by apply sublist_inserts_r.
  - intros l Hl. apply (filter_same_key item_key _ (Ok (PStr l))); [done|].
    intros x Hx. by apply item_key_link.
  - intros it l Hit Hlink Hl.
    destruct (Hfirst it Hit) as (k & pre & post & Hk & -> & Hpre').
    exists pre, (post ++ R). split; [by rewrite Hret, <- app_assoc|].
    intros x Hx Hxl. apply (Hpre' x Hx).
    rewrite <- Hk. rewrite (item_key_link it l Hlink Hl).
    by apply item_key_link.
  - intros Hrun Hbelow pre x post Hsplit Hfresh.
    destruct (Hok Hrun) as [->|Hfull]; [|unfold below_cap in Hbelow; lia].
    rewrite app_nil_r in Hret'. rewrite Hcol, <- Hret'. unfold first_seen.
    rewrite Hsplit. apply first_by_keeps; [apply not_elem_of_nil|].
    intros (y & Hy & Hin)%list_elem_of_fmap. by apply (Hfresh y).
  - intros Hrun Hbelow x Hx. rewrite Hret, (Hall Hrun Hbelow), app_nil_r in Hx.
    destruct (Hkeys x Hx) as [k Hk].
    destruct (Hkept k (Hseen x k Hx Hk)) as (it & Hit & Hitk).
    by exists k, it.
Qed.


(** Past the cap the loop over the queries issues no further search. *)
Lemma run_queries_stops (cfg : Config) (queries : list string) :
  forall (st : state) (more : list string),
    below_cap st ->
    MAX_PER_ROLE <= Z.of_nat (length (collected (run_queries cfg queries st).2)) ->
    run_queries cfg (queries ++ more) st = run_queries cfg queries st.
Proof.
  induction queries as [|q queries IH]; intros st more Hcap Hfull.
  - rewrite run_queries_nil in Hfull. unfold below_cap in Hcap. cbn [snd] in Hfull. lia.
  - rewrite <- app_comm_cons, !run_queries_cons.
    rewrite run_queries_cons in Hfull. cbn zeta in *.
    destruct (google_search_effect cfg q MAX_PER_ROLE st) as (_ & Hc & _).
    destruct (google_search cfg q MAX_PER_ROLE st) as [[js|e] st1]; cbn [fst snd] in *.
    + destruct (extract_items js) as [items|e]; [|done].
      destruct (scan_items items st1) as [[[]|e] st2]; cbn [fst snd] in *; [|done].
      destruct (Z.leb_spec MAX_PER_ROLE (Z.of_nat (length (collected st2)))); [done|].
      by apply IH.
    + destruct (is_Exception e); [|done].
      apply IH; [|done]. unfold below_cap in *. cbn [collected log_event]. by rewrite Hc.
Qed.

Lemma dict_set_Forall {V : Type} (Q : string * V -> Prop)
    (d : list (string * V)) (k : string) (v : V) :
  Forall Q d -> Q (k, v) -> Forall Q (dict_set d k v).
Proof.
  intros Hd Hv. induction Hd as [|[k' v'] d Hq Hd IH]; cbn [dict_set].
  - by repeat constructor.
  - destruct (String.eqb k' k); constructor; done.
Qed.

Lemma collect_role_results (cfg : Config) (role : string) (st : state) :
  Forall list_within_cap (results st) ->
  Forall list_within_cap (results (collect_role cfg role st).2).
Proof.
  intros Hst. destruct (collect_role_inv cfg role st)
    as (new & consumed & R & _ & _ & _ & Hcap & _ & _ & Hres).
  destruct (collect_role cfg role st).1.
  - rewrite Hres. by apply dict_set_Forall.
  - by rewrite Hres.
Qed.

Lemma for_roles_results (cfg : Config) (roles : list string) :
  forall st : state,
    Forall list_within_cap (results st) ->
    Forall list_within_cap (results (for_roles cfg roles st).2).
Proof.
  induction roles as [|role roles IH]; intros st Hst; [done|].
  cbn [for_roles]. unfold mbind, M_bind.
  pose proof (collect_role_results cfg role st Hst) as Hrole.
  destruct (collect_role cfg role st) as [[[]|e] st1]; cbn [fst snd] in *; [|done].
  by apply IH.
Qed.

End AggregatorProperties.

(* ===================================================================== *)
(** * Mailer                                                             *)
(* ===================================================================== *)

Section Mailer.
Context `{Env}.

Lemma bind_unfold {A B : Type} (m : M A) (f : A -> M B) (st : state) :
  (m ≫= f) st =
  match m st with
  | (Ok a, st') => f a st'
  | (Raise e, st') => (Raise e, st')
  end.
Proof. reflexivity. Qed.

Lemma smtp_unfold (op : smtp_op) (st : state) :
  smtp op st =
  (match (smtp_call op (world st)).1 with
   | Some e => Raise e
   | None => Ok tt
   end,
   log_event (EvSmtp op (smtp_call op (world st)).1)
             (set_world (smtp_call op (world st)).2 st)).
Proof. unfold smtp. by destruct (smtp_call op (world st)) as [[e|] w]. Qed.

Lemma run_ops_cons (op : smtp_op) (ops : list smtp_op) (st : state) :
  run_ops (op :: ops) st =
  match (smtp_call op (world st)).1 with
  | Some e =>
      (Raise e, log_event (EvSmtp op (Some e)) (set_world (smtp_call op (world st)).2 st))
  | None =>
      run_ops ops (log_event (EvSmtp op None) (set_world (smtp_call op (world st)).2 st))
  end.
Proof.
  cbn [run_ops]. rewrite bind_unfold, smtp_unfold.
  by destruct (smtp_call op (world st)).1.
Qed.

Lemma ret_unfold {A : Type} (a : A) (st : state) : (mret a : M A) st = (Ok a, st).
Proof. reflexivity. Qed.

Ltac smtp_norm :=
  repeat progress
    (rewrite ?bind_unfold, ?smtp_unfold, ?ret_unfold;
     cbn [fst snd world log_event set_world]).

Ltac smtp_case :=
  smtp_norm;
  match goal with
  | |- context [smtp_call ?op (world ?st)] =>
      destruct (smtp_call op (world st)) as [[?|] ?];
      cbn [fst snd world log_event set_world]; try done
  | |- context [smtp_call ?op ?w] =>
      is_var w; destruct (smtp_call op w) as [[?|] ?];
      cbn [fst snd world log_event set_world]; try done
  end.

(** The body of the [try] block is the session, command by command. *)
Lemma send_email_body (cfg : Config) (msg : mime_message) (st : state) :
  (smtp SmtpEhlo;;
   (if SMTP_PORT cfg =? 587 then smtp SmtpStarttls;; smtp SmtpEhlo else mret tt);;
   smtp (SmtpLogin (SMTP_USER cfg) (SMTP_PASS cfg));;
   smtp (SmtpSendmail (SENDER cfg) [RECIPIENT cfg] msg)) st
  = run_ops (session_ops cfg msg) st.
Proof.
  unfold session_ops. destruct (SMTP_PORT cfg =? 587); cbn [app];
    cbn [run_ops]; repeat smtp_case.
Qed.


(** A run of commands either completes, every command having succeeded,
    or stops at the first command that fails, raising its exception; it
    changes nothing but the world and the trace. *)
Lemma run_ops_spec (ops : list smtp_op) :
  forall st : state,
    results (run_ops ops st).2 = results st /\
    seen (run_ops ops st).2 = seen st /\
    collected (run_ops ops st).2 = collected st /\
    (((run_ops ops st).1 = Ok tt /\
      trace (run_ops ops st).2 = trace st ++ succeeded ops) \/
     (exists (done : list smtp_op) (op : smtp_op) (rest : list smtp_op) (e : exn),
        ops = done ++ op :: rest /\
        (run_ops ops st).1 = Raise e /\
        trace (run_ops ops st).2 = trace st ++ succeeded done ++ [EvSmtp op (Some e)])).
Proof.
  induction ops as [|op ops IH]; intros st.
  - cbn. rewrite app_nil_r. split_and!; try done. by left.
  - rewrite run_ops_cons.
    destruct (smtp_call op (world st)) as [[e|] w]; cbn [fst snd].
    + split_and!; try done. right. exists [], op, ops, e. done.
    + destruct (IH (log_event (EvSmtp op None) (set_world w st)))
        as (Hr & Hs & Hc & Hcases).
      rewrite Hr, Hs, Hc. split_and!; try done.
      destruct Hcases as [[Hok Ht]|(done & op' & rest & e & -> & Hraise & Ht)].
      * left. split; [done|]. rewrite Ht. cbn. by rewrite <- app_assoc.
      * right. exists (op :: done), op', rest, e. split; [done|]. split; [done|].
        rewrite Ht. cbn. by rewrite <- app_assoc.
Qed.

Lemma send_email_unfold (cfg : Config) (subject html_body : string) (st : state) :
  send_email cfg subject html_body st =
  if negb (email_config_ok cfg) then
    (Raise (Exn RuntimeError "SMTP and email environment variables required."), st)
  else
    let connect := SmtpConnect (SMTP_HOST cfg) (SMTP_PORT cfg) 30 in
    let st1 := log_event (EvSmtp connect (smtp_call connect (world st)).1)
                 (set_world (smtp_call connect (world st)).2 st) in
    match (smtp_call connect (world st)).1 with
    | Some e => (Raise e, st1)
    | None =>
        let body := run_ops (session_ops cfg (email_message cfg subject html_body)) st1 in
        let closing := smtp SmtpQuit body.2 in
        match closing.1 with
        | Ok _ => (body.1, closing.2)
        | Raise e => (Raise e, closing.2)
        end
    end.
Proof.
  unfold send_email, email_config_ok. destruct (negb _); [done|].
  cbn zeta. rewrite bind_unfold, smtp_unfold.
  destruct (smtp_call (SmtpConnect _ _ _) (world st)) as [[e|] w]; cbn [fst snd]; [done|].
  rewrite <- send_email_body. unfold try_finally, email_message.
  match goal with |- (let (_, _) := ?b in _) = _ => destruct b as [r st1] end.
  cbn [fst snd]. by destruct (smtp SmtpQuit st1) as [[[]|e] st2].
Qed.


Lemma send_email_results (cfg : Config) (subject html_body : string) (st : state) :
  results (send_email cfg subject html_body st).2 = results st.
Proof.
  rewrite send_email_unfold. destruct (negb _); [done|]. cbn zeta.
  destruct (smtp_call (SmtpConnect _ _ _) (world st)) as [[e|] w]; cbn [fst snd]; [done|].
  rewrite smtp_unfold. cbn [fst snd].
  destruct (run_ops_spec (session_ops cfg (email_message cfg subject html_body))
              (log_event (EvSmtp (SmtpConnect (SMTP_HOST cfg) (SMTP_PORT cfg) 30) None)
                 (set_world w st))) as (Hr & _).
  destruct (smtp_call SmtpQuit _) as [[e|] w']; cbn [fst snd results log_event set_world];
    by rewrite Hr.
Qed.

Lemma session_ops_587 (cfg : Config) (msg : mime_message) :
  SMTP_PORT cfg = 587 ->
  session_ops cfg msg
  = [ SmtpEhlo; SmtpStarttls; SmtpEhlo;
      SmtpLogin (SMTP_USER cfg) (SMTP_PASS cfg);
      SmtpSendmail (SENDER cfg) [RECIPIENT cfg] msg ].
Proof. intros Hp. unfold session_ops. by rewrite Hp. Qed.

Lemma session_ops_other (cfg : Config) (msg : mime_message) :
  SMTP_PORT cfg <> 587 ->
  session_ops cfg msg
  = [ SmtpEhlo;
      SmtpLogin (SMTP_USER cfg) (SMTP_PASS cfg);
      SmtpSendmail (SENDER cfg) [RECIPIENT cfg] msg ].
Proof.
  intros Hp. unfold session_ops.
  by destruct (Z.eqb_spec (SMTP_PORT cfg) 587).
Qed.

(** C9. The commands of the session are the handshake, on port 587 and
    only there the STARTTLS upgrade followed by a second handshake, the
    authentication and the sending of the message to the one configured
    recipient.  A run of the mailer adds to the trace: nothing, when the
    e-mail configuration is incomplete; the failed connection; or the
    connection, the commands of the session up to the first failure, and
    always the closing [quit].  It returns normally only when every
    command and the [quit] succeeded; otherwise it raises the exception
    of the [quit] if that failed, else the exception of the command. *)
Theorem send_email_session (cfg : Config) (subject html_body : string) (st : state) :
  let msg := email_message cfg subject html_body in
  let ops := session_ops cfg msg in
  let connect := SmtpConnect (SMTP_HOST cfg) (SMTP_PORT cfg) 30 in
  let r := (send_email cfg subject html_body st).1 in
  (SmtpStarttls ∈ ops <-> SMTP_PORT cfg = 587) /\
  (SMTP_PORT cfg = 587 ->
     ops = [ SmtpEhlo; SmtpStarttls; SmtpEhlo;
             SmtpLogin (SMTP_USER cfg) (SMTP_PASS cfg);
             SmtpSendmail (SENDER cfg) [RECIPIENT cfg] msg ]) /\
  (SMTP_PORT cfg <> 587 ->
     ops = [ SmtpEhlo;
             SmtpLogin (SMTP_USER cfg) (SMTP_PASS cfg);
             SmtpSendmail (SENDER cfg) [RECIPIENT cfg] msg ]) /\
  (forall (from_addr : pyval) (to_addrs : list pyval) (m : mime_message),
     SmtpSendmail from_addr to_addrs m ∈ ops -> to_addrs = [RECIPIENT cfg]) /\
  exists new : list event,
    trace (send_email cfg subject html_body st).2 = trace st ++ new /\
    ((email_config_ok cfg = false /\ new = [] /\
      r = Raise (Exn RuntimeError "SMTP and email environment variables required.")) \/
     (email_config_ok cfg = true /\
      exists e : exn, new = [EvSmtp connect (Some e)] /\ r = Raise e) \/
     (email_config_ok cfg = true /\
      exists closing : option exn,
        new = EvSmtp connect None :: succeeded ops ++ [EvSmtp SmtpQuit closing] /\
        r = match closing with Some e => Raise e | None => Ok tt end) \/
     (email_config_ok cfg = true /\
      exists (done : list smtp_op) (op : smtp_op) (rest : list smtp_op)
             (e : exn) (closing : option exn),
        ops = done ++ op :: rest /\
        new = EvSmtp connect None :: succeeded done
              ++ [EvSmtp op (Some e); EvSmtp SmtpQuit closing] /\
        r = Raise (match closing with Some e' => e' | None => e end))).
Proof.
  cbn zeta. split_and!.
  - destruct (Z.eq_dec (SMTP_PORT cfg) 587) as [Hp|Hp].
    + rewrite session_ops_587 by done. split; [done|]. intros _.
      apply elem_of_cons. right. apply elem_of_cons. by left.
    + rewrite session_ops_other by done. split; [|done].
      rewrite !elem_of_cons, elem_of_nil. intros [?|[?|[?|[]]]]; discriminate.
  - apply session_ops_587.
  - apply session_ops_other.
  - intros from_addr to_addrs m. unfold session_ops.
    destruct (SMTP_PORT cfg =? 587); cbn [app];
      rewrite !elem_of_cons, elem_of_nil; intros Hin;
      repeat (destruct Hin as [Hin|Hin]; try discriminate); try done;
      by injection Hin as -> -> ->.
  - rewrite send_email_unfold.
    destruct (email_config_ok cfg); cbn [negb].
    2:{ exists []. rewrite app_nil_r. split; [done|]. left. done. }
    cbn zeta.
    destruct (smtp_call (SmtpConnect _ _ _) (world st)) as [[e|] w]; cbn [fst snd].
    { eexists. split; [reflexivity|]. right. left. eauto. }
    rewrite smtp_unfold. cbn [fst snd].
    destruct (run_ops_spec (session_ops cfg (email_message cfg subject html_body))
                (log_event (EvSmtp (SmtpConnect (SMTP_HOST cfg) (SMTP_PORT cfg) 30) None)
                   (set_world w st)))
      as (_ & _ & _ & [[Hok Ht]|(done & op & rest & e & Hops & Hraise & Ht)]).
    + exists (EvSmtp (SmtpConnect (SMTP_HOST cfg) (SMTP_PORT cfg) 30) None
              :: succeeded (session_ops cfg (email_message cfg subject html_body))
              ++ [EvSmtp SmtpQuit (smtp_call SmtpQuit
                    (world (run_ops (session_ops cfg (email_message cfg subject html_body))
                      (log_event (EvSmtp (SmtpConnect (SMTP_HOST cfg) (SMTP_PORT cfg) 30) None)
                         (set_world w st))).2)).1]).
      split.
      * destruct (smtp_call SmtpQuit _).1; cbn [fst snd trace log_event set_world];
          rewrite Ht; cbn [trace log_event set_world]; by rewrite <- !app_assoc.
      * right. right. left. split; [done|]. eexists. split; [reflexivity|].
        rewrite Hok. by destruct (smtp_call SmtpQuit _).1.
    + exists (EvSmtp (SmtpConnect (SMTP_HOST cfg) (SMTP_PORT cfg) 30) None
              :: succeeded done
              ++ [EvSmtp op (Some e);
                  EvSmtp SmtpQuit (smtp_call SmtpQuit
                    (world (run_ops (session_ops cfg (email_message cfg subject html_body))
                      (log_event (EvSmtp (SmtpConnect (SMTP_HOST cfg) (SMTP_PORT cfg) 30) None)
                         (set_world w st))).2)).1]).
      split.
      * destruct (smtp_call SmtpQuit _).1; cbn [fst snd trace log_event set_world];
          rewrite Ht; cbn [trace log_event set_world]; rewrite <- !app_assoc; done.
      * right. right. right. split; [done|].
        exists done, op, rest, e. eexists. split; [done|]. split; [reflexivity|].
        rewrite Hraise. by destruct (smtp_call SmtpQuit _).1.
Qed.

End Mailer.

(* ===================================================================== *)
(** * Orchestrator                                                       *)
(* ===================================================================== *)

Section Orchestrator.
Context `{Env}.

Lemma truthy_missing (v : pyval) : truthy v = false <-> missing v.
Proof.
  unfold missing. destruct v as [|s]; cbn [truthy].
  - split; [by left | done].
  - destruct (String.eqb_spec s ""); cbn [negb].
    + subst. split; [by right | done].
    + split; [done|]. intros [?|?]; [done | congruence].
Qed.

Lemma config_complete_false (cfg : Config) :
  config_complete cfg = false <-> search_config_missing cfg \/ email_config_missing cfg.
Proof.
  unfold config_complete, search_config_missing, email_config_missing.
  rewrite !andb_false_iff, !truthy_missing. tauto.
Qed.

Ltac m_norm :=
  repeat progress
    (rewrite ?bind_unfold, ?ret_unfold;
     unfold modify, gets, lift, raise, print;
     cbn [fst snd]).

Lemma main_unfold (cfg : Config) (st : state) :
  main cfg st =
  if negb (config_complete cfg) then (Raise missing_diagnostic, st)
  else
    let st1 := (for_roles cfg ROLES (set_results [] st)).2 in
    match (for_roles cfg ROLES (set_results [] st)).1 with
    | Raise e => (Raise e, st1)
    | Ok _ =>
        match build_html_report (strftime "%Y-%m-%d %H:%M %Z" (world st1)) (results st1) with
        | Raise e => (Raise e, st1)
        | Ok html_report =>
            let subject :=
              "Daily job digest " +:+ em_dash +:+ " " +:+ strftime "%Y-%m-%d" (world st1) in
            let st2 := (send_email cfg subject html_report st1).2 in
            match (send_email cfg subject html_report st1).1 with
            | Raise e => (Raise e, st2)
            | Ok _ => (Ok tt, log_event (EvPrint ["Sent email to"; py_str (RECIPIENT cfg)]) st2)
            end
        end
    end.
Proof.
  unfold main, config_complete, missing_diagnostic.
  destruct (negb _); [done|].
  m_norm.
  destruct (for_roles cfg ROLES (set_results [] st)) as [[[]|e] st1]; m_norm; [|done].
  destruct (build_html_report _ _) as [html_report|e]; m_norm; [|done].
  by destruct (send_email cfg _ html_report st1) as [[[]|e] st2].
Qed.

(** C5, as the code has it.  When a required value (search API key,
    engine identifier, recipient, sender or SMTP password) is unset or
    empty, [main] raises [SystemExit] with one fixed message and leaves
    the world and the trace as they were: no HTTP request, no SMTP
    command, nothing printed. *)
Theorem main_missing_configuration (cfg : Config) (st : state) :
  search_config_missing cfg \/ email_config_missing cfg ->
  main cfg st = (Raise missing_diagnostic, st).
Proof.
  intros Hmiss. apply config_complete_false in Hmiss.
  rewrite main_unfold. by rewrite Hmiss.
Qed.

Lemma main_results (cfg : Config) (st : state) :
  Forall list_within_cap (results st) ->
  Forall list_within_cap (results (main cfg st).2).
Proof.
  intros Hst. rewrite main_unfold. destruct (negb _); [done|]. cbn zeta.
  pose proof (for_roles_results cfg ROLES (set_results [] st)) as Hroles.
  destruct (for_roles cfg ROLES (set_results [] st)) as [[[]|e] st1]; cbn [fst snd] in *.
  2:{ apply Hroles. constructor. }
  destruct (build_html_report _ _) as [html_report|e].
  2:{ apply Hroles. constructor. }
  pose proof (send_email_results cfg
    ("Daily job digest " +:+ em_dash +:+ " " +:+ strftime "%Y-%m-%d" (world st1))
    html_report st1) as Hsend.
  destruct (send_email cfg _ html_report st1) as [[[]|e] st2]; cbn [fst snd] in *;
    cbn [results log_event]; rewrite Hsend; apply Hroles; constructor.
Qed.

End Orchestrator.

Lemma main_missing_configuration_witness :
  @main scripted config_without_api_key sample_state
  = (Raise missing_diagnostic, sample_state).
Proof.
  apply (@main_missing_configuration scripted config_without_api_key sample_state).
  left. left. left. reflexivity.
Defined.

(** C5, as the specification words it, does not hold: a run that lacks
    only the search API key and a run that lacks only the SMTP password
    end with the same diagnostic, which therefore cannot tell which
    category of configuration is missing. *)
Lemma main_diagnostic_ignores_category :
  (search_config_missing config_without_api_key /\
   ~ email_config_missing config_without_api_key) /\
  (email_config_missing config_without_smtp_pass /\
   ~ search_config_missing config_without_smtp_pass) /\
  (@main scripted config_without_api_key sample_state).1
  = (@main scripted config_without_smtp_pass sample_state).1.
Proof.
  split_and!.
  - left. by left.
  - intros [[?|?]|[[?|?]|[?|?]]]; discriminate.
  - right. right. by left.
  - intros [[?|?]|[?|?]]; discriminate.
  - reflexivity.
Qed.

(* ===================================================================== *)
(** * The cap, failed searches and absent fields                         *)
(* ===================================================================== *)

Section CapAndFailures.
Context `{Env}.

(** Any [Exception] raised by the search call is caught: the loop prints
    a line and goes on with the next query. *)
Lemma search_exception_caught (cfg : Config) (q : string) (rest : list string)
    (st : state) (e : exn) :
  (google_search cfg q MAX_PER_ROLE st).1 = Raise e ->
  is_Exception e = true ->
  run_queries cfg (q :: rest) st
  = run_queries cfg rest
      (log_event (EvPrint ["Search error for query:"; q; exn_msg e])
         (google_search cfg q MAX_PER_ROLE st).2).
Proof.
  intros Hraise Hexc. rewrite run_queries_cons. cbn zeta.
  by rewrite Hraise, Hexc.
Qed.

(** C6. When the search call of a query fails (the HTTP request raises
    an exception such as a timeout or a transport error, the status of
    the response makes [raise_for_status] raise, or the body does not
    decode), [google_search] raises an [Exception]; the loop catches it
    at the call, prints a line naming the query and the error, leaves
    [seen], [collected] and [results] as they were, and continues with
    the remaining queries. *)
Theorem search_failure_skipped (cfg : Config) (q : string) (rest : list string)
    (st : state) (e : exn) :
  truthy (API_KEY cfg) && truthy (CX cfg) = true ->
  search_fails (requests_get search_url (search_params_of cfg q MAX_PER_ROLE) 20 (world st)).1 e ->
  let reply := (requests_get search_url (search_params_of cfg q MAX_PER_ROLE) 20 (world st)).1 in
  let st1 := (google_search cfg q MAX_PER_ROLE st).2 in
  let logged := log_event (EvPrint ["Search error for query:"; q; exn_msg e]) st1 in
  (google_search cfg q MAX_PER_ROLE st).1 = Raise e /\
  is_Exception e = true /\
  seen logged = seen st /\ collected logged = collected st /\ results logged = results st /\
  trace logged
  = trace st ++ [ EvHttpGet search_url (search_params_of cfg q MAX_PER_ROLE) 20 reply;
                  EvPrint ["Search error for query:"; q; exn_msg e] ] /\
  run_queries cfg (q :: rest) st = run_queries cfg rest logged.
Proof.
  intros Hkeys Hfails. cbn zeta.
  assert (Hraise : (google_search cfg q MAX_PER_ROLE st).1 = Raise e
                   /\ is_Exception e = true
                   /\ trace (google_search cfg q MAX_PER_ROLE st).2
                      = trace st ++ [EvHttpGet search_url (search_params_of cfg q MAX_PER_ROLE) 20
                           (requests_get search_url (search_params_of cfg q MAX_PER_ROLE) 20
                              (world st)).1]).
  { rewrite google_search_unfold, Hkeys. cbn [negb]. cbn zeta.
    destruct (requests_get _ _ _ _) as [reply w]. cbn [fst snd] in *.
    destruct Hfails as [e Hexc|resp msg Hmsg|resp msg Hstatus Hbody]; cbn [fst snd].
    - done.
    - unfold raise_for_status. by rewrite Hmsg.
    - unfold raise_for_status, response_json. by rewrite Hstatus, Hbody. }
  destruct Hraise as (Hraise & Hexc & Ht).
  destruct (google_search_effect cfg q MAX_PER_ROLE st) as (Hs & Hc & Hr & _).
  split_and!; try done.
  - cbn [trace log_event]. rewrite Ht. by rewrite <- app_assoc.
  - by apply search_exception_caught.
Qed.

(** C2. For every role and whatever the searches return, the list under
    construction holds at most 8 items when the role ends, normally or
    not, and so does the list stored for the role.  When it holds 8, the
    last thing the role did was the search that filled it; past the cap
    neither loop looks at a further item or query.  Every list of
    [results] at the end of [main] holds at most 8 items. *)
Theorem collected_within_cap (cfg : Config) (role : string) (st : state) :
  (length (collected (collect_role cfg role st).2) <= 8)%nat /\
  ((collect_role cfg role st).1 = Ok tt ->
     exists items : list item,
       dict_lookup (results (collect_role cfg role st).2) role = Some items /\
       (length items <= 8)%nat) /\
  ((8 <= length (collected (collect_role cfg role st).2))%nat ->
     exists (pre : list event) (ev : event),
       trace (collect_role cfg role st).2 = trace st ++ pre ++ [ev] /\ is_http_get ev) /\
  (forall (items more : list item) (st0 : state),
     (length (collected st0) < 8)%nat ->
     (8 <= length (collected (scan_items items st0).2))%nat ->
     scan_items (items ++ more) st0 = scan_items items st0) /\
  (forall (queries more : list string) (st0 : state),
     (length (collected st0) < 8)%nat ->
     (8 <= length (collected (run_queries cfg queries st0).2))%nat ->
     run_queries cfg (queries ++ more) st0 = run_queries cfg queries st0) /\
  (forall w : World,
     Forall (fun entry : string * list item => (length entry.2 <= 8)%nat)
            (results (main cfg (initial_state w)).2)).
Proof.
  destruct (collect_role_inv cfg role st)
    as (new & consumed & R & Ht & _ & _ & Hcap & Hlast & _ & Hres).
  unfold within_cap, MAX_PER_ROLE in *.
  split_and!.
  - lia.
  - intros Hok. rewrite Hok in Hres. exists (collected (collect_role cfg role st).2).
    split; [|lia]. rewrite Hres. apply dict_lookup_set.
  - intros Hfull. destruct Hlast as (pre & ev & -> & Hev); [lia|]. by exists pre, ev.
  - intros items more st0 Hbelow Hfull. apply scan_items_stops.
    + unfold below_cap, MAX_PER_ROLE. lia.
    + unfold MAX_PER_ROLE. lia.
  - intros queries more st0 Hbelow Hfull. apply run_queries_stops.
    + unfold below_cap, MAX_PER_ROLE. lia.
    + unfold MAX_PER_ROLE. lia.
  - intros w. eapply Forall_impl.
    + apply main_results. constructor.
    + intros entry Hentry. unfold list_within_cap, MAX_PER_ROLE in Hentry. lia.
Qed.

(** C10. A parsed response without an [items] field extracts to the empty
    list, without raising, and the search that returned it adds nothing to
    the role: the loop pauses and goes on with the next query, [collected]
    and [seen] being as before the call.  When [items] is an array, the
    extracted items are the hits in order, the snippet of a hit that has
    none being the empty string. *)
Theorem extract_items_defaults (js : search_json) :
  (js !! "items" = None -> extract_items js = Ok []) /\
  (js !! "items" = None ->
   forall (cfg : Config) (q : string) (rest : list string) (st : state),
     (google_search cfg q MAX_PER_ROLE st).1 = Ok js -> below_cap st ->
     collected (google_search cfg q MAX_PER_ROLE st).2 = collected st /\
     seen (google_search cfg q MAX_PER_ROLE st).2 = seen st /\
     run_queries cfg (q :: rest) st
     = run_queries cfg rest (log_event (EvSleep 400) (google_search cfg q MAX_PER_ROLE st).2)) /\
  (forall hits : list item, js !! "items" = Some (JArray hits) ->
     extract_items js = Ok (map extract_item hits) /\
     forall (i : nat) (raw : item),
       hits !! i = Some raw -> raw !! "snippet" = None ->
       exists it : item,
         map extract_item hits !! i = Some it /\ it !! "snippet" = Some (PStr "")).
Proof.
  assert (Hnone : js !! "items" = None -> extract_items js = Ok []).
  { intros E. unfold extract_items. by rewrite E. }
  split_and!.
  - exact Hnone.
  - intros E cfg q rest st Hok Hbelow.
    destruct (google_search_effect cfg q MAX_PER_ROLE st) as (Hs & Hc & _).
    split; [done|]. split; [done|].
    rewrite run_queries_cons. cbn zeta. rewrite Hok, (Hnone E), scan_items_nil.
    cbn [fst snd]. unfold below_cap in Hbelow. rewrite Hc.
    by destruct (Z.leb_spec MAX_PER_ROLE (Z.of_nat (length (collected st)))); [lia|].
  - intros hits E. unfold extract_items. rewrite E. cbn [default from_option id].
    rewrite extract_loop_spec. split; [done|].
    intros i raw Hi Hs. exists (extract_item raw). split.
    + by rewrite list_lookup_fmap, Hi.
    + rewrite extract_item_snippet. unfold dict_get_default. by rewrite Hs.
Qed.

End CapAndFailures.

(* ===================================================================== *)
(** * Report renderer                                                    *)
(* ===================================================================== *)

Lemma replace_char_app (c : ascii) (r a b : string) :
  replace_char c r (a +:+ b) = replace_char c r a +:+ replace_char c r b.
Proof.
  induction a as [|x a IH]; [done|].
  rewrite app_str_cons. cbn [replace_char]. rewrite IH.
  destruct (Ascii.eqb x c); [by rewrite app_str_assoc | done].
Qed.

Lemma html_escape_app (a b : string) :
  html_escape (a +:+ b) = html_escape a +:+ html_escape b.
Proof. unfold html_escape. by rewrite !replace_char_app. Qed.

Lemma html_escape_char (a : ascii) : html_escape (String a "") = escape_char a.
Proof.
  unfold html_escape, escape_char. cbn [replace_char].
  destruct (Ascii.eqb_spec a "&") as [->|Hamp]; [reflexivity|].
  destruct (Ascii.eqb_spec a "<") as [->|Hlt]; [reflexivity|].
  cbn [replace_char]. rewrite (proj2 (Ascii.eqb_neq a "<") Hlt).
  destruct (Ascii.eqb_spec a ">") as [->|Hgt]; [reflexivity|].
  cbn [replace_char]. rewrite (proj2 (Ascii.eqb_neq a ">") Hgt).
  destruct (Ascii.eqb_spec a dq) as [->|Hdq]; [reflexivity|].
  cbn [replace_char]. rewrite (proj2 (Ascii.eqb_neq a dq) Hdq).
  destruct (Ascii.eqb_spec a "'") as [->|Hq]; [reflexivity|].
  cbn [replace_char]. by rewrite (proj2 (Ascii.eqb_neq a "'") Hq).
Qed.

(** The five replacements of [html.escape] amount to escaping each
    character on its own. *)
Lemma html_escape_chars (s : string) : html_escape s = escape_chars s.
Proof.
  induction s as [|a s IH]; [done|].
  change (String a s) with (String a "" +:+ s).
  rewrite html_escape_app, html_escape_char, IH. reflexivity.
Qed.

Lemma list_ascii_app (a b : string) :
  String.list_ascii_of_string (a +:+ b)
  = String.list_ascii_of_string a ++ String.list_ascii_of_string b.
Proof.
  induction a as [|x a IH]; [done|].
  rewrite app_str_cons. cbn [String.list_ascii_of_string]. by rewrite IH.
Qed.

Lemma escape_char_no_markup (x a : ascii) :
  a ∈ String.list_ascii_of_string (escape_char x) -> ~ is_markup a.
Proof.
  unfold escape_char, is_markup.
  destruct (Ascii.eqb_spec x "&");
    [|destruct (Ascii.eqb_spec x "<");
      [|destruct (Ascii.eqb_spec x ">");
        [|destruct (Ascii.eqb_spec x dq);
          [|destruct (Ascii.eqb_spec x "'")]]]];
    cbn [String.list_ascii_of_string]; rewrite ?elem_of_cons, elem_of_nil;
    intros Hin [?|[?|[?|?]]]; subst;
    repeat (destruct Hin as [Hin|Hin]; try discriminate); try done.
Qed.

(** Escaped text holds no angle bracket and no quote. *)
Lemma html_escape_no_markup (s : string) (a : ascii) :
  a ∈ String.list_ascii_of_string (html_escape s) -> ~ is_markup a.
Proof.
  rewrite html_escape_chars. induction s as [|x s IH]; cbn [escape_chars].
  - cbn. by rewrite elem_of_nil.
  - rewrite list_ascii_app, elem_of_app. intros [Hin|Hin]; [|by apply IH].
    by eapply escape_char_no_markup.
Qed.

Lemma render_item_spec (it : item) (title link : pyval) (shown snippet : string) :
  it !! "title" = Some title -> it !! "link" = Some link ->
  anchor_source title link = PStr shown ->
  dict_get_default it "snippet" (PStr "") = PStr snippet ->
  render_item it = Ok (item_entry (py_str link) shown snippet).
Proof.
  intros Ht Hl Hshown Hsn. unfold render_item, dict_index, anchor_source in *.
  rewrite Ht, Hl, Hsn. cbn [mbind result_bind].
  destruct (truthy title); cbn [mbind result_bind]; rewrite Hshown; reflexivity.
Qed.

Lemma render_item_renderable (it : item) (entry : string) :
  render_item it = Ok entry ->
  exists (title link : pyval) (shown snippet : string),
    it !! "title" = Some title /\ it !! "link" = Some link /\
    anchor_source title link = PStr shown /\
    dict_get_default it "snippet" (PStr "") = PStr snippet /\
    entry = item_entry (py_str link) shown snippet.
Proof.
  unfold render_item, dict_index, anchor_source.
  destruct (it !! "title") as [title|]; cbn [mbind result_bind]; [|done].
  destruct (it !! "link") as [link|] eqn:Hl.
  - destruct (truthy title) eqn:Htruthy; cbn [mbind result_bind].
    + destruct title as [|t]; cbn [py_html_escape mbind result_bind]; [done|].
      destruct (dict_get_default it "snippet" (PStr "")) as [|sn] eqn:Hsn;
        cbn [py_html_escape mbind result_bind]; [done|].
      intros [= <-]. exists (PStr t), link, t, sn. by rewrite Htruthy.
    + destruct link as [|l]; cbn [py_html_escape mbind result_bind]; [done|].
      destruct (dict_get_default it "snippet" (PStr "")) as [|sn] eqn:Hsn;
        cbn [py_html_escape mbind result_bind]; [done|].
      intros [= <-]. exists title, (PStr l), l, sn. by rewrite Htruthy.
  - destruct (truthy title); cbn [mbind result_bind]; [|done].
    destruct (py_html_escape title); cbn [mbind result_bind]; done.
Qed.

Lemma render_items_spec (items : list item) :
  forall body : string,
    render_items items body
    = (entries ← render_entries items; Ok (body +:+ entries)).
Proof.
  induction items as [|it items IH]; intros body; cbn [render_items render_entries].
  - cbn. by rewrite app_str_nil_r.
  - destruct (render_item it) as [entry|e]; cbn [mbind result_bind]; [|done].
    rewrite IH. destruct (render_entries items) as [entries|e]; cbn [mbind result_bind]; [|done].
    by rewrite app_str_assoc.
Qed.

Lemma render_role_spec (role : string) (items : list item) (body : string) :
  render_role role items body
  = (section ← role_section role items; Ok (body +:+ section)).
Proof.
  unfold render_role, role_section, role_heading. cbn zeta.
  rewrite render_items_spec.
  destruct (render_entries items) as [entries|e]; cbn [mbind result_bind]; [|done].
  destruct items; by rewrite !app_str_assoc.
Qed.

Lemma render_roles_spec (results_by_role : list (string * list item)) :
  forall body : string,
    render_roles results_by_role body
    = (sections ← role_sections results_by_role; Ok (body +:+ sections)).
Proof.
  induction results_by_role as [|[role items] rs IH]; intros body;
    cbn [render_roles role_sections].
  - cbn. by rewrite app_str_nil_r.
  - rewrite render_role_spec.
    destruct (role_section role items) as [section|e]; cbn [mbind result_bind]; [|done].
    rewrite IH. destruct (role_sections rs) as [sections|e]; cbn [mbind result_bind]; [|done].
    by rewrite app_str_assoc.
Qed.

(** The report is the header, the sections of the roles in order, and
    the footer. *)
Lemma build_html_report_spec (now : string) (results_by_role : list (string * list item)) :
  build_html_report now results_by_role
  = (sections ← role_sections results_by_role;
     Ok ("<html><body>" +:+ report_header now +:+ sections +:+ report_footer
         +:+ "</body></html>")).
Proof.
  unfold build_html_report, report_header, report_footer. cbn zeta.
  rewrite render_roles_spec.
  destruct (role_sections results_by_role) as [sections|e]; cbn [mbind result_bind]; [|done].
  by rewrite !app_str_assoc.
Qed.

Lemma render_entries_elem (items : list item) :
  forall (entries : string) (it : item),
    render_entries items = Ok entries -> it ∈ items ->
    exists entry pre post : string,
      render_item it = Ok entry /\ entries = pre +:+ entry +:+ post.
Proof.
  induction items as [|x items IH]; intros entries it Hr Hin.
  - by apply elem_of_nil in Hin.
  - cbn [render_entries] in Hr.
    destruct (render_item x) as [entry|e] eqn:Hx; cbn [mbind result_bind] in Hr; [|done].
    destruct (render_entries items) as [rest|e] eqn:Hrest; cbn [mbind result_bind] in Hr;
      [|done].
    injection Hr as <-.
    apply elem_of_cons in Hin as [->|Hin].
    + by exists entry, "", rest.
    + destruct (IH rest it eq_refl Hin) as (entry' & pre & post & Hit & ->).
      exists entry', (entry +:+ pre), post. split; [done|]. by rewrite app_str_assoc.
Qed.

Lemma role_sections_elem (results_by_role : list (string * list item)) :
  forall (sections role : string) (items : list item),
    role_sections results_by_role = Ok sections -> (role, items) ∈ results_by_role ->
    exists section pre post : string,
      role_section role items = Ok section /\ sections = pre +:+ section +:+ post.
Proof.
  induction results_by_role as [|[r its] rs IH]; intros sections role items Hr Hin.
  - by apply elem_of_nil in Hin.
  - cbn [role_sections] in Hr.
    destruct (role_section r its) as [section|e] eqn:Hx; cbn [mbind result_bind] in Hr; [|done].
    destruct (role_sections rs) as [rest|e] eqn:Hrest; cbn [mbind result_bind] in Hr; [|done].
    injection Hr as <-.
    apply elem_of_cons in Hin as [[= -> ->]|Hin].
    + by exists section, "", rest.
    + destruct (IH rest role items eq_refl Hin) as (section' & pre & post & Hit & ->).
      exists section', (section +:+ pre), post. split; [done|]. by rewrite app_str_assoc.
Qed.

Lemma render_entries_total (items : list item) :
  (forall it : item, it ∈ items -> renderable it) ->
  exists entries : string, render_entries items = Ok entries.
Proof.
  induction items as [|x items IH]; intros Hall; [by exists ""|].
  destruct (Hall x) as (title & link & shown & snippet & Ht & Hl & Hshown & Hsn); [by left|].
  destruct IH as [entries Hentries]; [intros it Hit; apply Hall; by right|].
  cbn [render_entries]. rewrite (render_item_spec x title link shown snippet) by done.
  rewrite Hentries. cbn. eauto.
Qed.

Lemma role_sections_total (results_by_role : list (string * list item)) :
  (forall (role : string) (items : list item) (it : item),
     (role, items) ∈ results_by_role -> it ∈ items -> renderable it) ->
  exists sections : string, role_sections results_by_role = Ok sections.
Proof.
  induction results_by_role as [|[role items] rs IH]; intros Hall; [by exists ""|].
  destruct (render_entries_total items) as [entries Hentries].
  { intros it Hit. apply (Hall role items); [by left | done]. }
  destruct IH as [sections Hsections].
  { intros r its it Hr Hit. apply (Hall r its); [by right | done]. }
  cbn [role_sections]. unfold role_section. rewrite Hentries. cbn [mbind result_bind].
  rewrite Hsections. cbn. eauto.
Qed.

(** C7. Every item of a rendered report appears in it as one list entry
    whose anchor text is the escaped title, or the escaped link when the
    title is absent or empty, whose small text is the escaped snippet and
    whose [href] is the link as it is.  Escaping replaces each of the
    characters [&], [<], [>] and the two quotes by its entity, so the
    escaped texts hold no angle bracket and no quote.  A report is
    rendered whenever every item has its keys and strings to show. *)
Theorem report_escapes_text (now : string) (results_by_role : list (string * list item)) :
  ((forall (role : string) (items : list item) (it : item),
      (role, items) ∈ results_by_role -> it ∈ items -> renderable it) ->
   exists html : string, build_html_report now results_by_role = Ok html) /\
  (forall html : string,
     build_html_report now results_by_role = Ok html ->
     forall (role : string) (items : list item) (it : item),
       (role, items) ∈ results_by_role -> it ∈ items ->
       exists (title link : pyval) (shown snippet pre post : string),
         it !! "title" = Some title /\ it !! "link" = Some link /\
         anchor_source title link = PStr shown /\
         dict_get_default it "snippet" (PStr "") = PStr snippet /\
         html = pre +:+ "<li><a href='" +:+ py_str link +:+ "'>" +:+ html_escape shown
                +:+ "</a><br/><small>" +:+ html_escape snippet +:+ "</small></li>" +:+ post /\
         html_escape shown = escape_chars shown /\
         html_escape snippet = escape_chars snippet /\
         (forall a : ascii,
            a ∈ String.list_ascii_of_string (html_escape shown) \/
            a ∈ String.list_ascii_of_string (html_escape snippet) ->
            ~ is_markup a)).
Proof.
  split.
  - intros Hall. rewrite build_html_report_spec.
    destruct (role_sections_total results_by_role Hall) as [sections ->]. cbn. eauto.
  - intros html Hreport role items it Hrole Hit.
    rewrite build_html_report_spec in Hreport.
    destruct (role_sections results_by_role) as [sections|e] eqn:Hsections;
      cbn [mbind result_bind] in Hreport; [|done].
    injection Hreport as <-.
    destruct (role_sections_elem _ _ _ _ Hsections Hrole)
      as (section & pre & post & Hsection & ->).
    unfold role_section in Hsection.
    destruct (render_entries items) as [entries|e] eqn:Hentries;
      cbn [mbind result_bind] in Hsection; [|done].
    injection Hsection as <-.
    destruct (render_entries_elem _ _ _ Hentries Hit)
      as (entry & pre' & post' & Hentry & ->).
    destruct (render_item_renderable _ _ Hentry)
      as (title & link & shown & snippet & Ht & Hl & Hshown & Hsn & ->).
    exists title, link, shown, snippet.
    exists ("<html><body>" +:+ report_header now +:+ pre
            +:+ role_heading role (length items)
            +:+ (match items with [] => "<li>No results found.</li>" | _ :: _ => "" end)
            +:+ pre'),
           (post' +:+ "</ul>" +:+ post +:+ report_footer +:+ "</body></html>").
    split_and!; try done.
    + unfold item_entry. rewrite !app_str_assoc. reflexivity.
    + apply html_escape_chars.
    + apply html_escape_chars.
    + intros a [Ha|Ha]; by eapply html_escape_no_markup.
Qed.

Lemma count_starts_app_plain (sub : string) (c : ascii) (sub' s t : string) :
  sub = String c sub' ->
  c ∉ String.list_ascii_of_string s ->
  count_starts sub (s +:+ t) = count_starts sub t.
Proof.
  intros -> Hc. induction s as [|x s IH]; [done|].
  rewrite app_str_cons. cbn [count_starts String.prefix].
  cbn [String.list_ascii_of_string] in Hc. apply not_elem_of_cons in Hc as [Hx Hc].
  destruct (ascii_dec c x) as [->|_]; [done|]. cbn. by apply IH.
Qed.

Lemma html_escape_no_lt (s : string) :
  "<"%char ∉ String.list_ascii_of_string (html_escape s).
Proof.
  intros Hin. apply (html_escape_no_markup s "<" Hin). by left.
Qed.

(** C8. The section of a role without results is its heading with the
    count 0 and a list whose one entry reads [No results found.]; this is
    what the loop body appends for such a role, and the section stands in
    every rendered report whose results hold the role with no item. *)
Theorem empty_role_section (role : string) :
  (forall body : string, render_role role [] body = Ok (body +:+ empty_section role)) /\
  empty_section role
  = "<h3>" +:+ html_escape role +:+ " " +:+ em_dash +:+ " 0 results</h3>" +:+ nl
    +:+ "<ul>" +:+ "<li>No results found.</li>" +:+ "</ul>" /\
  count_starts "<li>" (empty_section role) = 1%nat /\
  (forall (now : string) (results_by_role : list (string * list item)) (html : string),
     build_html_report now results_by_role = Ok html ->
     (role, []) ∈ results_by_role ->
     exists pre post : string, html = pre +:+ empty_section role +:+ post).
Proof.
  split_and!.
  - intros body. rewrite render_role_spec. unfold role_section, role_heading, empty_section.
    cbn [render_entries mbind result_bind length]. rewrite !app_str_assoc. reflexivity.
  - reflexivity.
  - unfold empty_section.
    change ("<h3>" +:+ html_escape role +:+ " " +:+ em_dash +:+ " 0 results</h3>" +:+ nl
            +:+ "<ul><li>No results found.</li></ul>")
      with (String "<" (String "h" (String "3" (String ">"
              (html_escape role +:+ " " +:+ em_dash +:+ " 0 results</h3>" +:+ nl
               +:+ "<ul><li>No results found.</li></ul>"))))).
    cbn [count_starts String.prefix].
    destruct (ascii_dec "l" "h") as [?|_]; [discriminate|].
    destruct (ascii_dec "<" "h") as [?|_]; [discriminate|].
    destruct (ascii_dec "<" "3") as [?|_]; [discriminate|].
    destruct (ascii_dec "<" ">") as [?|_]; [discriminate|].
    destruct (ascii_dec "<" "<") as [_|?]; [|done].
    cbn [Nat.add].
    rewrite (count_starts_app_plain "<li>" "<" "li>") by (done || apply html_escape_no_lt).
    reflexivity.
  - intros now results_by_role html Hreport Hrole.
    rewrite build_html_report_spec in Hreport.
    destruct (role_sections results_by_role) as [sections|e] eqn:Hsections;
      cbn [mbind result_bind] in Hreport; [|done].
    injection Hreport as <-.
    destruct (role_sections_elem _ _ _ _ Hsections Hrole)
      as (section & pre & post & Hsection & ->).
    unfold role_section in Hsection. cbn [render_entries mbind result_bind length] in Hsection.
    injection Hsection as <-.
    exists ("<html><body>" +:+ report_header now +:+ pre),
           (post +:+ report_footer +:+ "</body></html>").
    unfold role_heading, empty_section. rewrite !app_str_assoc. reflexivity.
Qed.

(* ===================================================================== *)
(** * The properties at concrete inputs                                  *)
(* ===================================================================== *)

Lemma extract_items_defaults_witness :
  extract_items ∅ = Ok [] /\
  exists it : item,
    map extract_item [ {[ "link" := PStr "l" ]} ] !! 0%nat = Some it /\
    it !! "snippet" = Some (PStr "").
Proof.
  split.
  - apply (@extract_items_defaults scripted ∅). reflexivity.
  - destruct (@extract_items_defaults scripted {[ "items" := JArray [ {[ "link" := PStr "l" ]} ] ]})
      as (_ & _ & H).
    destruct (H [ {[ "link" := PStr "l" ]} ] eq_refl) as [_ H'].
    exact (H' 0%nat {[ "link" := PStr "l" ]} eq_refl eq_refl).
Defined.

(** Three searches, the second of which times out: the repeated link and
    the repeated hit are dropped, the order is that of first appearance. *)
Example collect_role_sample :
  collected (@collect_role scripted sample_config "Backend Developer" sample_state).2
  = [hit_a; hit_b; hit_c].
Proof. reflexivity. Qed.

Lemma collect_role_first_seen_witness :
  exists (new : list event) (pre post : list item),
    trace (@collect_role scripted sample_config "Backend Developer" sample_state).2
    = trace sample_state ++ new /\
    collected (@collect_role scripted sample_config "Backend Developer" sample_state).2
    = take 8 (first_seen (returned_items new)) /\
    [hit_a; hit_b; hit_c] `sublist_of` returned_items new /\
    returned_items new = pre ++ hit_a :: post /\
    forall x : item, x ∈ pre -> dict_get x "link" <> PStr "https://a.example/1".
Proof.
  destruct (@collect_role_first_seen scripted sample_config "Backend Developer" sample_state)
    as (new & Ht & _ & Htake & _ & Hsub & _ & Hfirst & _).
  destruct (Hfirst hit_a "https://a.example/1") as (pre & post & Hsplit & Hpre).
  - left.
  - reflexivity.
  - discriminate.
  - exists new, pre, post. split; [exact Ht|]. split; [apply Htake; reflexivity|].
    split; [exact Hsub|]. split; assumption.
Defined.

(** C1, as the specification words it, does not hold: the first, and
    only, returned item with a link is not appended when an earlier item
    without link has that address as its title.  The run ends normally
    with one item in the list. *)
Lemma collect_role_drops_fresh_link :
  (@collect_role scripted sample_config "Backend Developer" collision_state).1 = Ok tt /\
  returned_items
    (trace (@collect_role scripted sample_config "Backend Developer" collision_state).2)
  = [extract_item headline_hit; hit_a] /\
  dict_get hit_a "link" = PStr "https://a.example/1" /\
  dict_get (extract_item headline_hit) "link" = PNone /\
  collected (@collect_role scripted sample_config "Backend Developer" collision_state).2
  = [extract_item headline_hit] /\
  hit_a ∉ collected (@collect_role scripted sample_config "Backend Developer"
                       collision_state).2.
Proof.
  assert (Hc : collected (@collect_role scripted sample_config "Backend Developer"
                            collision_state).2 = [extract_item headline_hit])
    by reflexivity.
  split_and!; try reflexivity.
  rewrite Hc. intros Hin%list_elem_of_singleton.
  assert (Hlink : dict_get hit_a "link" = dict_get (extract_item headline_hit) "link")
    by (by rewrite Hin).
  discriminate Hlink.
Qed.

(** Twelve distinct hits from one search: eight are kept. *)
Example collect_role_twelve_hits :
  length (collected (@collect_role scripted sample_config "Backend Developer"
                       twelve_hits_state).2) = 8%nat.
Proof. vm_compute. reflexivity. Qed.

Lemma collected_within_cap_witness :
  (length (collected (@collect_role scripted sample_config "Backend Developer"
                        twelve_hits_state).2) <= 8)%nat /\
  exists (pre : list event) (ev : event),
    trace (@collect_role scripted sample_config "Backend Developer" twelve_hits_state).2
    = trace twelve_hits_state ++ pre ++ [ev] /\ is_http_get ev.
Proof.
  destruct (@collected_within_cap scripted sample_config "Backend Developer" twelve_hits_state)
    as (Hlen & _ & Hlast & _).
  split; [exact Hlen|]. apply Hlast. vm_compute. reflexivity.
Defined.

Lemma search_failure_skipped_witness :
  (@google_search scripted sample_config "q" MAX_PER_ROLE timeout_state).1
  = Raise (Exn ReadTimeout "Read timed out.") /\
  @run_queries scripted sample_config ["q"; "r"] timeout_state
  = @run_queries scripted sample_config ["r"]
      (log_event (EvPrint ["Search error for query:"; "q"; "Read timed out."])
         (@google_search scripted sample_config "q" MAX_PER_ROLE timeout_state).2).
Proof.
  destruct (@search_failure_skipped scripted sample_config "q" ["r"] timeout_state
              (Exn ReadTimeout "Read timed out."))
    as (Hraise & _ & _ & _ & _ & _ & Hcont).
  - reflexivity.
  - apply fails_raised. reflexivity.
  - split; [exact Hraise | exact Hcont].
Defined.

(** After the time-out the next search runs and its hit is collected. *)
Example run_queries_after_timeout :
  collected (@run_queries scripted sample_config ["q"; "r"] timeout_state).2 = [hit_c] /\
  (@run_queries scripted sample_config ["q"; "r"] timeout_state).1 = Ok tt.
Proof. split; reflexivity. Qed.

(** A hit without title and link aborts the whole run with a
    [TypeError], before any report is rendered or sent. *)
Example main_untitled_unlinked_hit :
  exists e : exn,
    (@main scripted sample_config untitled_unlinked_state).1 = Raise e /\
    exn_cls e = TypeError /\
    length (trace (@main scripted sample_config untitled_unlinked_state).2) = 1%nat.
Proof. eexists. split; [reflexivity|]. split; [reflexivity|]. vm_compute. reflexivity. Qed.

(** The scenario of the specification: two hits for the query restricted
    to stripe.com, nothing for the other queries. *)
Example stripe_scenario :
  build_queries stripe_config "Backend Developer"
  = [ "Backend Developer site:stripe.com";
      "Backend Developer startup hiring";
      "Backend Developer " +:+ quoted "we are hiring";
      "Backend Developer " +:+ quoted "hiring now" ] /\
  collected (@collect_role stub stripe_config "Backend Developer" (@initial_state stub tt)).2
  = stripe_hits /\
  role_section "Backend Developer" stripe_hits
  = Ok ("<h3>Backend Developer " +:+ em_dash +:+ " 2 results</h3>" +:+ nl +:+ "<ul>"
        +:+ "<li><a href='https://stripe.com/jobs/1'>Engineer</a><br/><small>Build</small></li>"
        +:+ "<li><a href='https://stripe.com/jobs/2'>Designer</a><br/><small>Draw</small></li>"
        +:+ "</ul>").
Proof. split; [reflexivity|]. split; reflexivity. Qed.

Lemma sample_results_renderable (role : string) (items : list item) (it : item) :
  (role, items) ∈ sample_results -> it ∈ items -> renderable it.
Proof.
  unfold sample_results. rewrite !elem_of_cons, elem_of_nil.
  intros [[= -> ->]|[[= -> ->]|[]]].
  - rewrite !elem_of_cons, elem_of_nil. intros [->|[->|[]]].
    + exists (PStr "C++ <Senior> & more"), (PStr "https://x.example/?a=1&b=2"),
        "C++ <Senior> & more", "R&D <b>team</b>". by split_and!.
    + exists PNone, (PStr "https://y.example/<job>"), "https://y.example/<job>", "".
      by split_and!.
  - by rewrite elem_of_nil.
Qed.

Lemma report_escapes_text_witness :
  exists html pre post : string,
    build_html_report "2026-01-01 00:00 UTC" sample_results = Ok html /\
    html = pre
           +:+ "<li><a href='https://y.example/<job>'>https://y.example/&lt;job&gt;</a><br/><small></small></li>"
           +:+ post.
Proof.
  destruct (report_escapes_text "2026-01-01 00:00 UTC" sample_results) as [Htotal Hentries].
  destruct (Htotal sample_results_renderable) as [html Hhtml].
  destruct (Hentries html Hhtml "Backend Developer" [markup_hit; untitled_hit] untitled_hit)
    as (title & link & shown & snippet & pre & post & Ht & Hl & Hshown & Hsn & Heq & _).
  - left.
  - right. left.
  - exists html, pre, post. split; [exact Hhtml|].
    vm_compute in Ht. injection Ht as <-.
    vm_compute in Hl. injection Hl as <-.
    vm_compute in Hshown. injection Hshown as <-.
    vm_compute in Hsn. injection Hsn as <-.
    exact Heq.
Defined.

(** The entry of a hit whose title and snippet hold markup. *)
Example render_item_markup :
  render_item markup_hit
  = Ok ("<li><a href='https://x.example/?a=1&b=2'>C++ &lt;Senior&gt; &amp; more</a>"
        +:+ "<br/><small>R&amp;D &lt;b&gt;team&lt;/b&gt;</small></li>").
Proof. reflexivity. Qed.

Lemma empty_role_section_witness :
  exists pre post : string,
    "<html><body>" +:+ report_header "now" +:+ empty_section "Salesforce Developer"
      +:+ report_footer +:+ "</body></html>"
    = pre +:+ empty_section "Salesforce Developer" +:+ post.
Proof.
  destruct (empty_role_section "Salesforce Developer") as (_ & _ & _ & Hreport).
  apply (Hreport "now" [("Salesforce Developer", [])]).
  - reflexivity.
  - left.
Defined.

(** A session on port 587 in which the password is rejected: the
    connection is closed and the failure is raised. *)
Example send_email_auth_failure :
  (@send_email scripted sample_config "subject" "<html/>" auth_failure_state).1
  = Raise (Exn SMTPException "Authentication failed") /\
  trace (@send_email scripted sample_config "subject" "<html/>" auth_failure_state).2
  = [ EvSmtp (SmtpConnect "smtp.gmail.com" 587 30) None;
      EvSmtp SmtpEhlo None;
      EvSmtp SmtpStarttls None;
      EvSmtp SmtpEhlo None;
      EvSmtp (SmtpLogin (PStr "from@example.org") (PStr "secret"))
             (Some (Exn SMTPException "Authentication failed"));
      EvSmtp SmtpQuit None ].
Proof. split; reflexivity. Qed.

Lemma send_email_session_witness :
  session_ops sample_config (email_message sample_config "subject" "<html/>")
  = [ SmtpEhlo; SmtpStarttls; SmtpEhlo;
      SmtpLogin (SMTP_USER sample_config) (SMTP_PASS sample_config);
      SmtpSendmail (SENDER sample_config) [RECIPIENT sample_config]
                   (email_message sample_config "subject" "<html/>") ].
Proof.
  destruct (@send_email_session scripted sample_config "subject" "<html/>" auth_failure_state)
    as (_ & H587 & _).
  apply H587. reflexivity.
Defined.

(* ===================================================================== *)
(** * Configuration loader                                               *)
(* ===================================================================== *)


















Example top_startups_sample :
  stripped_nonempty (split_comma " stripe.com, Acme ,, ,notion.so")
  = ["stripe.com"; "Acme"; "notion.so"].
Proof. vm_compute. reflexivity. Qed.





(* ===================================================================== *)
(** * Search client                                                      *)
(* ===================================================================== *)

Section SearchClient.
Context `{Env}.

(** X3. A call of [google_search] without API key or engine identifier
    raises a [RuntimeError] and sends nothing.  Otherwise it sends exactly
    one request, to the search endpoint with the key, the engine, the
    query as given and a count of at most 10 ([min(num, 10)]), with a
    timeout of 20; it touches none of the locals; and it returns the
    object [js] exactly when the request returned a response whose status
    passes [raise_for_status] and whose body decodes to [js]. *)
Theorem google_search_request (cfg : Config) (query : string) (num : Z) (st : state) :
  (truthy (API_KEY cfg) && truthy (CX cfg) = false ->
   google_search cfg query num st
   = (Raise (Exn RuntimeError "GCSE_API_KEY and GCSE_CX environment variables are required."),
      st)) /\
  (truthy (API_KEY cfg) && truthy (CX cfg) = true ->
   exists (params : search_params) (reply : http_reply),
     p_key params = API_KEY cfg /\ p_cx params = CX cfg /\ p_q params = query /\
     p_num params = Z.min num 10 /\ p_num params <= 10 /\
     reply = (requests_get search_url params 20 (world st)).1 /\
     world (google_search cfg query num st).2
     = (requests_get search_url params 20 (world st)).2 /\
     trace (google_search cfg query num st).2
     = trace st ++ [EvHttpGet search_url params 20 reply] /\
     seen (google_search cfg query num st).2 = seen st /\
     collected (google_search cfg query num st).2 = collected st /\
     results (google_search cfg query num st).2 = results st /\
     forall js : search_json,
       (google_search cfg query num st).1 = Ok js <->
       exists resp : http_response,
         reply = HttpReturned resp /\ http_error resp = None /\
         http_body_of resp = BodyJson js).
Proof.
  rewrite google_search_unfold. split.
  - intros ->. reflexivity.
  - intros ->. cbn [negb]. cbn zeta.
    exists (search_params_of cfg query num),
      (requests_get search_url (search_params_of cfg query num) 20 (world st)).1.
    destruct (requests_get _ _ _ _) as [reply w]. cbn [fst snd].
    split_and!; try done.
    + cbn. lia.
    + by destruct reply.
    + by destruct reply.
    + by destruct reply.
    + by destruct reply.
    + by destruct reply.
    + intros js. destruct reply as [e|resp]; cbn [fst].
      * split; [done|]. by intros (resp & ? & _).
      * unfold raise_for_status, response_json.
        destruct (http_error resp) as [msg|] eqn:Herr.
        -- split; [done|]. intros (resp' & [= <-] & Hnone & _). congruence.
        -- destruct (http_body_of resp) as [msg|js'] eqn:Hbody.
           ++ split; [done|]. intros (resp' & [= <-] & _ & Hjs). congruence.
           ++ split.
              ** intros [= <-]. by exists resp.
              ** intros (resp' & [= <-] & _ & Hjs). congruence.
Qed.

End SearchClient.

Lemma google_search_request_witness :
  @google_search scripted config_without_api_key "q" 25 sample_state
  = (Raise (Exn RuntimeError "GCSE_API_KEY and GCSE_CX environment variables are required."),
     sample_state).
Proof.
  apply (@google_search_request scripted config_without_api_key "q" 25 sample_state).
  reflexivity.
Defined.

(** A count above 10 is sent as 10. *)
Example google_search_count_capped :
  trace (@google_search scripted sample_config "q" 25 timeout_state).2
  = [ EvHttpGet search_url
        {| p_key := PStr "k"; p_cx := PStr "cx"; p_q := "q"; p_num := 10 |} 20
        (HttpRaised (Exn ReadTimeout "Read timed out.")) ].
Proof. reflexivity. Qed.

(* ===================================================================== *)
(** * Rendering what was extracted                                       *)
(* ===================================================================== *)

Lemma extract_item_keys (raw : item) :
  extract_item raw !! "title" = Some (dict_get raw "title") /\
  extract_item raw !! "link" = Some (dict_get raw "link") /\
  dict_get_default (extract_item raw) "snippet" (PStr "")
  = dict_get_default raw "snippet" (PStr "").
Proof.
  split; [apply extract_item_title|]. split; [apply extract_item_link|].
  apply dict_get_default_extract_snippet.
Qed.

(** X4. An item built by [extract_items] always has the keys the
    renderer reads, so rendering it never raises a [KeyError]: it gives
    the entry when the text for the anchor (the title, or the link when
    the title is absent or empty) and the snippet are strings, the [href]
    being the link or the text [None] when the hit has no link; and it
    raises an [AttributeError] when the hit has neither a non-empty title
    nor a link, or a null snippet. *)
Theorem render_extracted_item (raw : item) :
  let title := dict_get raw "title" in
  let link := dict_get raw "link" in
  let snippet := dict_get_default raw "snippet" (PStr "") in
  match anchor_source title link, snippet with
  | PStr shown, PStr sn =>
      render_item (extract_item raw) = Ok (item_entry (py_str link) shown sn)
  | _, _ =>
      exists e : exn,
        render_item (extract_item raw) = Raise e /\ exn_cls e = AttributeError
  end /\
  (forall t sn : string,
     raw !! "title" = Some (PStr t) -> t <> "" -> raw !! "link" = None ->
     dict_get_default raw "snippet" (PStr "") = PStr sn ->
     render_item (extract_item raw) = Ok (item_entry "None" t sn)).
Proof.
  cbn zeta.
  destruct (extract_item_keys raw) as (Ht & Hl & Hs).
  assert (Hrender :
    match anchor_source (dict_get raw "title") (dict_get raw "link"),
          dict_get_default raw "snippet" (PStr "") with
    | PStr shown, PStr sn =>
        render_item (extract_item raw)
        = Ok (item_entry (py_str (dict_get raw "link")) shown sn)
    | _, _ =>
        exists e : exn,
          render_item (extract_item raw) = Raise e /\ exn_cls e = AttributeError
    end).
  { unfold render_item, dict_index, anchor_source. rewrite Ht, Hl, Hs.
    cbn [mbind result_bind].
    destruct (truthy (dict_get raw "title")) eqn:Htruthy; cbn [mbind result_bind].
    - destruct (dict_get raw "title") as [|t]; [done|]. cbn [py_html_escape mbind result_bind].
      destruct (dict_get_default raw "snippet" (PStr "")) as [|sn];
        cbn [py_html_escape mbind result_bind]; eauto.
    - destruct (dict_get raw "link") as [|l]; cbn [py_html_escape mbind result_bind]; [eauto|].
      destruct (dict_get_default raw "snippet" (PStr "")) as [|sn];
        cbn [py_html_escape mbind result_bind]; eauto. }
  split; [exact Hrender|].
  intros t sn Htitle Hne Hlink Hsn.
  unfold dict_get in Hrender. rewrite Htitle, Hlink, Hsn in Hrender.
  cbn [default from_option id] in Hrender. unfold anchor_source in Hrender.
  cbn [truthy] in Hrender.
  destruct (String.eqb_spec t ""); [done|]. exact Hrender.
Qed.

Lemma render_extracted_item_witness :
  render_item (extract_item titled_unlinked_hit)
  = Ok "<li><a href='None'>Engineer</a><br/><small></small></li>".
Proof.
  destruct (render_extracted_item titled_unlinked_hit) as [_ H].
  apply (H "Engineer" ""); [reflexivity | discriminate | reflexivity | reflexivity].
Defined.

(* ===================================================================== *)
(** * The list entries of a section                                      *)
(* ===================================================================== *)

Lemma count_li_other (a : ascii) (s : string) :
  a <> "<"%char -> count_starts "<li>" (String a s) = count_starts "<li>" s.
Proof.
  intros Ha. cbn [count_starts String.prefix].
  destruct (ascii_dec "<" a) as [<-|_]; [done|]. reflexivity.
Qed.

Lemma count_li_tag (b : ascii) (s : string) :
  b <> "l"%char ->
  count_starts "<li>" (String "<" (String b s)) = count_starts "<li>" (String b s).
Proof.
  intros Hb. cbn [count_starts String.prefix].
  destruct (ascii_dec "<" "<") as [_|?]; [|done].
  destruct (ascii_dec "l" b) as [<-|_]; [done|]. reflexivity.
Qed.

Lemma count_li_entry (s : string) :
  count_starts "<li>" (String "<" (String "l" (String "i" (String ">" s))))
  = S (count_starts "<li>" s).
Proof.
  cbn [count_starts String.prefix].
  destruct (ascii_dec "<" "<") as [_|?]; [|done].
  destruct (ascii_dec "l" "l") as [_|?]; [|done].
  destruct (ascii_dec "i" "i") as [_|?]; [|done].
  destruct (ascii_dec ">" ">") as [_|?]; [|done].
  destruct (ascii_dec "<" "l") as [?|_]; [discriminate|].
  destruct (ascii_dec "<" "i") as [?|_]; [discriminate|].
  destruct (ascii_dec "<" ">") as [?|_]; [discriminate|].
  rewrite prefix_empty. reflexivity.
Qed.

Lemma count_li_plain (s t : string) :
  "<"%char ∉ String.list_ascii_of_string s ->
  count_starts "<li>" (s +:+ t) = count_starts "<li>" t.
Proof. intros Hs. by apply (count_starts_app_plain "<li>" "<" "li>"). Qed.

Lemma string_of_uint_no_lt (d : Decimal.uint) :
  "<"%char ∉ String.list_ascii_of_string (NilEmpty.string_of_uint d).
Proof.
  induction d; cbn [NilEmpty.string_of_uint String.list_ascii_of_string];
    [apply not_elem_of_nil | ..];
    (apply not_elem_of_cons; split; [discriminate | assumption]).
Qed.

Lemma str_of_nat_no_lt (n : nat) : "<"%char ∉ String.list_ascii_of_string (str_of_nat n).
Proof. apply string_of_uint_no_lt. Qed.

(** Steps through the fixed text in front of a string. *)
Ltac count_li :=
  repeat first
    [ rewrite app_str_cons
    | rewrite app_str_nil_l
    | rewrite count_li_entry
    | rewrite count_li_tag by discriminate
    | rewrite count_li_other by discriminate ].

Lemma count_li_item_entry (href shown snippet tail : string) :
  "<"%char ∉ String.list_ascii_of_string href ->
  count_starts "<li>" (item_entry href shown snippet +:+ tail)
  = S (count_starts "<li>" tail).
Proof.
  intros Hhref. unfold item_entry. rewrite !app_str_assoc.
  count_li. rewrite (count_li_plain href) by done.
  count_li. rewrite (count_li_plain (html_escape shown)) by apply html_escape_no_lt.
  count_li. rewrite (count_li_plain (html_escape snippet)) by apply html_escape_no_lt.
  count_li. reflexivity.
Qed.

Lemma count_li_entries (items : list item) :
  forall entries tail : string,
    render_entries items = Ok entries ->
    (forall (it : item) (v : pyval),
       it ∈ items -> it !! "link" = Some v ->
       "<"%char ∉ String.list_ascii_of_string (py_str v)) ->
    count_starts "<li>" (entries +:+ tail)
    = (length items + count_starts "<li>" tail)%nat.
Proof.
  induction items as [|it items IH]; intros entries tail Hr Hlinks.
  - injection Hr as <-. reflexivity.
  - cbn [render_entries] in Hr.
    destruct (render_item it) as [entry|e] eqn:Hit; cbn [mbind result_bind] in Hr; [|done].
    destruct (render_entries items) as [rest|e] eqn:Hrest; cbn [mbind result_bind] in Hr;
      [|done].
    injection Hr as <-.
    destruct (render_item_renderable _ _ Hit)
      as (title & link & shown & snippet & _ & Hl & _ & _ & ->).
    rewrite app_str_assoc, count_li_item_entry.
    + rewrite (IH rest tail eq_refl); [done|].
      intros it' v Hit' Hv. apply (Hlinks it' v); [by right | done].
    + apply (Hlinks it link); [by left | done].
Qed.

(** X5. What the renderer appends for a role is the heading with the
    number of items, and a list in which the tag [<li>] occurs as many
    times as there are items (once for a role without items), whatever
    the titles and snippets hold, as long as no link holds [<]. *)
Theorem section_entry_count (role : string) (items : list item) (body body' : string) :
  render_role role items body = Ok body' ->
  (forall (it : item) (v : pyval),
     it ∈ items -> it !! "link" = Some v ->
     "<"%char ∉ String.list_ascii_of_string (py_str v)) ->
  exists listing : string,
    body' = body +:+ "<h3>" +:+ html_escape role +:+ " " +:+ em_dash +:+ " "
            +:+ str_of_nat (length items) +:+ " results</h3>" +:+ nl +:+ listing /\
    count_starts "<li>" listing = Nat.max 1 (length items) /\
    count_starts "<li>"
      ("<h3>" +:+ html_escape role +:+ " " +:+ em_dash +:+ " "
       +:+ str_of_nat (length items) +:+ " results</h3>" +:+ nl +:+ listing)
    = Nat.max 1 (length items).
Proof.
  intros Hrender Hlinks. rewrite render_role_spec in Hrender.
  unfold role_section in Hrender.
  destruct (render_entries items) as [entries|e] eqn:Hentries;
    cbn [mbind result_bind] in Hrender; [|done].
  injection Hrender as <-.
  exists ("<ul>" +:+ (match items with [] => "<li>No results found.</li>" | _ :: _ => "" end)
          +:+ entries +:+ "</ul>").
  assert (Hlisting :
    count_starts "<li>"
      ("<ul>" +:+ (match items with [] => "<li>No results found.</li>" | _ :: _ => "" end)
       +:+ entries +:+ "</ul>") = Nat.max 1 (length items)).
  { destruct items as [|it items].
    - injection Hentries as <-. reflexivity.
    - count_li. rewrite (count_li_entries (it :: items) entries "</ul>" Hentries Hlinks).
      cbn [length]. change (count_starts "<li>" "</ul>") with 0%nat. lia. }
  split_and!.
  - unfold role_heading. by rewrite !app_str_assoc.
  - exact Hlisting.
  - unfold em_dash, nl. count_li.
    rewrite (count_li_plain (html_escape role)) by apply html_escape_no_lt.
    count_li. rewrite (count_li_plain (str_of_nat (length items))) by apply str_of_nat_no_lt.
    count_li. exact Hlisting.
Qed.

Lemma section_entry_count_witness :
  exists listing : string, count_starts "<li>" listing = 2%nat.
Proof.
  destruct (section_entry_count "Backend Developer" stripe_hits ""
              ("<h3>Backend Developer " +:+ em_dash +:+ " 2 results</h3>" +:+ nl +:+ "<ul>"
               +:+ "<li><a href='https://stripe.com/jobs/1'>Engineer</a><br/><small>Build</small></li>"
               +:+ "<li><a href='https://stripe.com/jobs/2'>Designer</a><br/><small>Draw</small></li>"
               +:+ "</ul>"))
    as (listing & _ & Hcount & _).
  - reflexivity.
  - intros it v. unfold stripe_hits. rewrite !elem_of_cons, elem_of_nil.
    intros [->|[->|[]]] [= <-]; compute_done.
  - exists listing. exact Hcount.
Defined.

(** A link that holds the tag adds an entry of its own. *)
Example section_entry_count_link_markup :
  exists section : string,
    role_section "Backend Developer" [linked_hit_with_markup] = Ok section /\
    count_starts "<li>" section = 2%nat.
Proof. eexists. split; [reflexivity|]. vm_compute. reflexivity. Qed.

(* ===================================================================== *)
(** * The trace of the aggregation                                       *)
(* ===================================================================== *)

Section AggregationTrace.
Context `{Env}.

(** The inner loop has no effect outside [seen] and [collected]. *)
Lemma scan_items_frame (items : list item) :
  forall st : state,
    world (scan_items items st).2 = world st /\
    trace (scan_items items st).2 = trace st /\
    results (scan_items items st).2 = results st.
Proof.
  induction items as [|it items IH]; intros st; [done|].
  rewrite scan_items_cons.
  destruct (item_key it) as [key|e]; [|done].
  case_bool_decide; [apply IH|].
  destruct (MAX_PER_ROLE <=? _); [done|].
  destruct (IH (record_item key it st)) as (Hw & Ht & Hr).
  by rewrite Hw, Ht, Hr.
Qed.

Lemma run_queries_role_trace (cfg : Config) (queries : list string) :
  forall st : state,
    exists new : list event,
      trace (run_queries cfg queries st).2 = trace st ++ new /\
      role_trace cfg queries new.
Proof.
  induction queries as [|q queries IH]; intros st.
  - exists []. rewrite run_queries_nil, app_nil_r. split; [done | constructor].
  - rewrite run_queries_cons, google_search_unfold. cbn zeta.
    destruct (truthy (API_KEY cfg) && truthy (CX cfg)) eqn:Hkeys; cbn [negb fst snd].
    + destruct (requests_get search_url (search_params_of cfg q MAX_PER_ROLE) 20 (world st))
        as [reply w]. cbn [fst snd].
      set (st1 := log_event (EvHttpGet search_url (search_params_of cfg q MAX_PER_ROLE) 20 reply)
                    (set_world w st)).
      assert (Hstop : exists new : list event,
                 trace st1 = trace st ++ new /\ role_trace cfg (q :: queries) new).
      { exists [role_request cfg q reply]. split; [done | constructor]. }
      assert (Hfail : forall e : exn,
                 search_fails reply e ->
                 exists new : list event,
                   trace (run_queries cfg queries
                            (log_event (EvPrint ["Search error for query:"; q; exn_msg e]) st1)).2
                   = trace st ++ new /\ role_trace cfg (q :: queries) new).
      { intros e He.
        destruct (IH (log_event (EvPrint ["Search error for query:"; q; exn_msg e]) st1))
          as (new & Ht & Hnew).
        exists (role_request cfg q reply :: search_error_line q (exn_msg e) :: new).
        split; [|by constructor].
        rewrite Ht. cbn [trace log_event set_world st1].
        by rewrite <- !app_assoc. }
      destruct reply as [e|resp]; cbn [fst snd].
      * destruct (is_Exception e) eqn:Hexc; [|exact Hstop].
        apply Hfail. by constructor.
      * unfold raise_for_status, response_json.
        destruct (http_error resp) as [msg|] eqn:Herr.
        { apply (Hfail (Exn HTTPError msg)). by constructor. }
        destruct (http_body_of resp) as [msg|js] eqn:Hbody.
        { apply (Hfail (Exn JSONDecodeError msg)). by constructor. }
        destruct (extract_items js) as [items|e]; [|exact Hstop].
        destruct (scan_items_frame items st1) as (_ & Htr & _).
        destruct (scan_items items st1) as [[[]|e] st2]; cbn [fst snd] in *.
        2:{ rewrite Htr. exact Hstop. }
        destruct (MAX_PER_ROLE <=? _).
        { cbn [snd]. rewrite Htr. exact Hstop. }
        destruct (IH (log_event (EvSleep 400) st2)) as (new & Ht & Hnew).
        exists (role_request cfg q (HttpReturned resp) :: EvSleep 400 :: new).
        split.
        -- rewrite Ht. cbn [trace log_event]. rewrite Htr. cbn [trace log_event set_world st1].
           by rewrite <- !app_assoc.
        -- constructor; [|done]. by exists resp, js.
    + cbn [is_Exception exn_cls].
      destruct (IH (log_event
                      (EvPrint ["Search error for query:"; q;
                                "GCSE_API_KEY and GCSE_CX environment variables are required."])
                      st)) as (new & Ht & Hnew).
      exists (search_error_line q "GCSE_API_KEY and GCSE_CX environment variables are required."
              :: new).
      split; [|by constructor].
      cbn [exn_msg]. rewrite Ht. cbn [trace log_event]. by rewrite <- app_assoc.
Qed.

Lemma collect_role_trace (cfg : Config) (role : string) (st : state) :
  exists new : list event,
    trace (collect_role cfg role st).2 = trace st ++ new /\
    role_trace cfg (build_queries cfg role) new.
Proof.
  rewrite collect_role_unfold. cbn zeta.
  destruct (run_queries_role_trace cfg (build_queries cfg role)
              (set_collected [] (set_seen ∅ st))) as (new & Ht & Hnew).
  exists new. split; [|done].
  by destruct (run_queries _ _ _) as [[[]|e] st1].
Qed.

End AggregationTrace.

Lemma count_requests_queries (tr : list event) :
  count_requests tr = length (requested_queries tr).
Proof.
  unfold count_requests. induction tr as [|ev tr IH]; [done|].
  destruct ev; cbn [List.filter is_request requested_queries length]; by rewrite ?IH.
Qed.

Lemma count_requests_app (tr1 tr2 : list event) :
  count_requests (tr1 ++ tr2) = (count_requests tr1 + count_requests tr2)%nat.
Proof. unfold count_requests. by rewrite List.filter_app, length_app. Qed.

(** What a trace of a role says about its requests. *)
Lemma role_trace_requests (cfg : Config) (queries : list string) (tr : list event) :
  role_trace cfg queries tr ->
  requested_queries tr `sublist_of` queries /\
  (truthy (API_KEY cfg) && truthy (CX cfg) = true ->
   requested_queries tr `prefix_of` queries) /\
  Forall (fun ev =>
            match ev with
            | EvHttpGet _ _ _ reply =>
                exists q : string, q ∈ queries /\ ev = role_request cfg q reply
            | EvSmtp _ _ => False
            | _ => True
            end) tr.
Proof.
  induction 1 as [|q qs msg tr Hkeys Htr IH|q qs reply e tr Hfail Htr IH
                  |q qs reply tr Hret Htr IH|q qs reply];
    try destruct IH as (Hsub & Hpre & Hall);
    cbn [requested_queries role_request search_error_line p_q search_params_of].
  - split_and!; [done | done | constructor].
  - split_and!.
    + by constructor.
    + intros Hk. congruence.
    + constructor; [done|]. eapply Forall_impl; [exact Hall|].
      intros [] Hev; try done. destruct Hev as (q' & Hq' & ->). exists q'. split; [by right|done].
  - split_and!.
    + by constructor.
    + intros Hk. apply prefix_cons. by apply Hpre.
    + constructor; [exists q; split; [by left | done]|]. constructor; [done|].
      eapply Forall_impl; [exact Hall|].
      intros [] Hev; try done. destruct Hev as (q' & Hq' & ->). exists q'. split; [by right|done].
  - split_and!.
    + by constructor.
    + intros Hk. apply prefix_cons. by apply Hpre.
    + constructor; [exists q; split; [by left | done]|]. constructor; [done|].
      eapply Forall_impl; [exact Hall|].
      intros [] Hev; try done. destruct Hev as (q' & Hq' & ->). exists q'. split; [by right|done].
  - split_and!.
    + constructor. apply sublist_nil_l.
    + intros _. apply prefix_cons. apply prefix_nil.
    + constructor; [|constructor]. exists q. split; [by left | done].
Qed.

(* ===================================================================== *)
(** * The run as a whole                                                 *)
(* ===================================================================== *)

Lemma build_queries_length (cfg : Config) (role : string) :
  length (build_queries cfg role) = (length (TOP_STARTUPS cfg) + 3)%nat.
Proof.
  unfold build_queries. destruct (TOP_STARTUPS cfg) as [|d ds] eqn:E.
  - reflexivity.
  - rewrite org_queries_loop_spec. rewrite !length_app, length_map. cbn [length app]. lia.
Qed.

Lemma request_of_roles_mono (cfg : Config) (roles roles' : list string) (ev : event) :
  (forall role : string, role ∈ roles -> role ∈ roles') ->
  request_of_roles cfg roles ev -> request_of_roles cfg roles' ev.
Proof.
  intros Hsub. destruct ev; cbn [request_of_roles]; try done.
  intros (Hurl & Ht & role & q & Hrole & Hq & Hp). split; [done|]. split; [done|].
  exists role, q. split; [by apply Hsub | done].
Qed.

Lemma dict_set_fresh {V : Type} (d : list (string * V)) (k : string) (v : V) :
  k ∉ map fst d -> dict_set d k v = d ++ [(k, v)].
Proof.
  induction d as [|[k' v'] d IH]; cbn [dict_set map fst app]; [done|].
  intros [Hne Hd]%not_elem_of_cons.
  destruct (String.eqb_spec k' k) as [->|_]; [done|]. by rewrite IH.
Qed.

Lemma role_sections_parts (results_by_role : list (string * list item)) :
  forall sections : string,
    role_sections results_by_role = Ok sections ->
    exists parts : list string,
      Forall2 (fun entry part => role_section entry.1 entry.2 = Ok part)
              results_by_role parts /\
      sections = concat_str parts.
Proof.
  induction results_by_role as [|[role items] rs IH]; intros sections Hr.
  - injection Hr as <-. exists []. split; [constructor | done].
  - cbn [role_sections] in Hr.
    destruct (role_section role items) as [section|e] eqn:Hx; cbn [mbind result_bind] in Hr;
      [|done].
    destruct (role_sections rs) as [rest|e] eqn:Hrest; cbn [mbind result_bind] in Hr; [|done].
    injection Hr as <-.
    destruct (IH rest eq_refl) as (parts & Hparts & ->).
    exists (section :: parts). split; [by constructor | done].
Qed.

Lemma requested_queries_app (tr1 tr2 : list event) :
  requested_queries (tr1 ++ tr2) = requested_queries tr1 ++ requested_queries tr2.
Proof.
  induction tr1 as [|ev tr1 IH]; [done|].
  destruct ev; cbn [app requested_queries]; by rewrite IH.
Qed.

Lemma ok_values {A B : Type} (f : A -> result B) (c : list A) :
  (forall x : A, x ∈ c -> exists k : B, f x = Ok k) ->
  exists keys : list B, Forall2 (fun x k => f x = Ok k) c keys.
Proof.
  induction c as [|x c IH]; intros Hc.
  - exists []. constructor.
  - destruct (Hc x) as [k Hk]; [by left|].
    destruct IH as [keys Hkeys]; [intros y Hy; apply Hc; by right|].
    exists (k :: keys). by constructor.
Qed.

Lemma ok_values_map {A B : Type} (f : A -> result B) (c : list A) (keys : list B) :
  Forall2 (fun x k => f x = Ok k) c keys -> map f c = map Ok keys.
Proof. induction 1 as [|x k c keys Hk _ IH]; [done|]. cbn [map]. by rewrite Hk, IH. Qed.

Lemma ok_values_elem {A B : Type} (f : A -> result B) (c : list A) (keys : list B) :
  Forall2 (fun x k => f x = Ok k) c keys ->
  forall k : B, k ∈ keys <-> exists x : A, x ∈ c /\ f x = Ok k.
Proof.
  induction 1 as [|x k c keys Hk _ IH]; intros k'.
  - split; [by intros ?%elem_of_nil | by intros (x & ?%elem_of_nil & _)].
  - rewrite elem_of_cons, IH. split.
    + intros [->|(y & Hy & Hyk)]; [exists x; split; [by left | done]|].
      exists y. split; [by right | done].
    + intros (y & [->|Hy]%elem_of_cons & Hyk); [left; congruence|].
      right. by exists y.
Qed.

Section WholeRun.
Context `{Env}.

Lemma for_roles_cons (cfg : Config) (role : string) (roles : list string) (st : state) :
  for_roles cfg (role :: roles) st =
  match (collect_role cfg role st).1 with
  | Ok _ => for_roles cfg roles (collect_role cfg role st).2
  | Raise e => (Raise e, (collect_role cfg role st).2)
  end.
Proof.
  cbn [for_roles]. rewrite bind_unfold.
  by destruct (collect_role cfg role st) as [[[]|e] st1].
Qed.

(** The roles add to the trace only searches, log lines and pauses, with
    at most one request per query. *)
Lemma for_roles_trace (cfg : Config) (roles : list string) :
  forall st : state,
    exists new : list event,
      trace (for_roles cfg roles st).2 = trace st ++ new /\
      Forall (request_of_roles cfg roles) new /\
      requested_queries new `sublist_of` flat_map (build_queries cfg) roles /\
      (count_requests new <= length roles * (length (TOP_STARTUPS cfg) + 3))%nat.
Proof.
  induction roles as [|role roles IH]; intros st.
  - exists []. cbn. rewrite app_nil_r. split_and!; [done | constructor | done | done].
  - rewrite for_roles_cons.
    destruct (collect_role_trace cfg role st) as (new1 & Ht1 & Hrt).
    destruct (role_trace_requests _ _ _ Hrt) as (Hsub & _ & Hall).
    assert (Hreq : Forall (request_of_roles cfg (role :: roles)) new1).
    { eapply Forall_impl; [exact Hall|].
      intros [] Hev; cbn [request_of_roles]; try done.
      destruct Hev as (q & Hq & [= -> -> ->]). split; [done|]. split; [done|].
      exists role, q. split; [by left | done]. }
    assert (Hcount : (count_requests new1 <= length (TOP_STARTUPS cfg) + 3)%nat).
    { rewrite count_requests_queries, <- (build_queries_length cfg role).
      by apply sublist_length. }
    destruct (collect_role cfg role st) as [[[]|e] st1]; cbn [fst snd] in *.
    + destruct (IH st1) as (new2 & Ht2 & Hreq2 & Hsub2 & Hcount2).
      exists (new1 ++ new2). split_and!.
      * by rewrite Ht2, Ht1, <- app_assoc.
      * apply Forall_app. split; [done|].
        eapply Forall_impl; [exact Hreq2|]. intros ev. apply request_of_roles_mono.
        intros r Hr. by right.
      * rewrite requested_queries_app. cbn [flat_map]. by apply sublist_app.
      * rewrite count_requests_app. cbn [length]. lia.
    + exists new1. split_and!; [done | done | |].
      * cbn [flat_map]. by apply sublist_inserts_r.
      * cbn [length]. lia.
Qed.

(** The keys of [results] follow the roles, as far as the roles went. *)
Lemma for_roles_keys (cfg : Config) (roles : list string) :
  forall st : state,
    NoDup roles ->
    (forall role : string, role ∈ roles -> role ∉ map fst (results st)) ->
    exists done : list string,
      map fst (results (for_roles cfg roles st).2) = map fst (results st) ++ done /\
      done `prefix_of` roles /\
      ((for_roles cfg roles st).1 = Ok tt -> done = roles).
Proof.
  induction roles as [|role roles IH]; intros st Hnd Hfresh.
  - exists []. cbn. by rewrite app_nil_r.
  - rewrite for_roles_cons. apply NoDup_cons in Hnd as [Hrole Hnd].
    destruct (collect_role_inv cfg role st) as (? & ? & ? & _ & _ & _ & _ & _ & _ & Hres).
    destruct (collect_role cfg role st) as [[[]|e] st1]; cbn [fst snd] in *.
    + rewrite dict_set_fresh in Hres by (apply Hfresh; by left).
      destruct (IH st1 Hnd) as (done & Hkeys & Hpre & Hok).
      { intros r Hr. rewrite Hres, map_app, elem_of_app. cbn [map fst].
        intros [Hin|Hin%list_elem_of_singleton].
        - apply (Hfresh r); [by right | done].
        - subst. done. }
      exists (role :: done). split_and!.
      * rewrite Hkeys, Hres, map_app. cbn [map fst]. by rewrite <- app_assoc.
      * by apply prefix_cons.
      * intros Hr. by rewrite (Hok Hr).
    + exists []. rewrite Hres, app_nil_r. split_and!; [done | apply prefix_nil | done].
Qed.

Lemma succeeded_smtp (ops : list smtp_op) : Forall (fun ev => is_smtp ev = true) (succeeded ops).
Proof. unfold succeeded. induction ops; by constructor. Qed.

(** The mailer adds only SMTP commands to the trace; when it returns
    normally these are the connection, the whole session and the
    [quit], all successful. *)
Lemma send_email_trace (cfg : Config) (subject html_body : string) (st : state) :
  exists new : list event,
    trace (send_email cfg subject html_body st).2 = trace st ++ new /\
    Forall (fun ev => is_smtp ev = true) new /\
    ((send_email cfg subject html_body st).1 = Ok tt ->
     new = EvSmtp (SmtpConnect (SMTP_HOST cfg) (SMTP_PORT cfg) 30) None
           :: succeeded (session_ops cfg (email_message cfg subject html_body))
           ++ [EvSmtp SmtpQuit None]).
Proof.
  rewrite send_email_unfold. destruct (negb _).
  { exists []. rewrite app_nil_r. split_and!; [done | constructor | done]. }
  cbn zeta.
  destruct (smtp_call (SmtpConnect _ _ _) (world st)) as [[e|] w]; cbn [fst snd].
  { eexists. split; [reflexivity|]. split; [by repeat constructor | done]. }
  rewrite smtp_unfold. cbn [fst snd].
  destruct (run_ops_spec (session_ops cfg (email_message cfg subject html_body))
              (log_event (EvSmtp (SmtpConnect (SMTP_HOST cfg) (SMTP_PORT cfg) 30) None)
                 (set_world w st)))
    as (_ & _ & _ & [[Hok Ht]|(done & op & rest & e & Hops & Hraise & Ht)]).
  - destruct (smtp_call SmtpQuit _) as [[e|] w'] eqn:Hquit; cbn [fst snd].
    + exists (EvSmtp (SmtpConnect (SMTP_HOST cfg) (SMTP_PORT cfg) 30) None
              :: succeeded (session_ops cfg (email_message cfg subject html_body))
              ++ [EvSmtp SmtpQuit (Some e)]).
      split_and!; [|  | done].
      * cbn [trace log_event set_world]. rewrite Ht. cbn [trace log_event set_world].
        by rewrite <- !app_assoc.
      * constructor; [done|]. apply Forall_app. split; [apply succeeded_smtp|].
        by repeat constructor.
    + exists (EvSmtp (SmtpConnect (SMTP_HOST cfg) (SMTP_PORT cfg) 30) None
              :: succeeded (session_ops cfg (email_message cfg subject html_body))
              ++ [EvSmtp SmtpQuit None]).
      split_and!; [|  | done].
      * cbn [trace log_event set_world]. rewrite Ht. cbn [trace log_event set_world].
        by rewrite <- !app_assoc.
      * constructor; [done|]. apply Forall_app. split; [apply succeeded_smtp|].
        by repeat constructor.
  - exists (EvSmtp (SmtpConnect (SMTP_HOST cfg) (SMTP_PORT cfg) 30) None
            :: succeeded done
            ++ [EvSmtp op (Some e);
                EvSmtp SmtpQuit (smtp_call SmtpQuit
                  (world (run_ops (session_ops cfg (email_message cfg subject html_body))
                    (log_event (EvSmtp (SmtpConnect (SMTP_HOST cfg) (SMTP_PORT cfg) 30) None)
                       (set_world w st))).2)).1]).
    split_and!.
    + destruct (smtp_call SmtpQuit _).1; cbn [fst snd trace log_event set_world];
        rewrite Ht; cbn [trace log_event set_world]; by rewrite <- !app_assoc.
    + constructor; [done|]. apply Forall_app. split; [apply succeeded_smtp|].
      by repeat constructor.
    + rewrite Hraise. by destruct (smtp_call SmtpQuit _).1.
Qed.

End WholeRun.

(* ===================================================================== *)
(** * Properties of the run as a whole                                   *)
(* ===================================================================== *)

Section RunProperties.
Context `{Env}.

(** Without the search keys every call of [google_search] raises before
    any request; the loop logs one line per query and collects nothing. *)
Lemma run_queries_unsent (cfg : Config) (queries : list string) :
  truthy (API_KEY cfg) && truthy (CX cfg) = false ->
  forall st : state,
    (run_queries cfg queries st).1 = Ok tt /\
    trace (run_queries cfg queries st).2
    = trace st ++ map (fun q => search_error_line q
                         "GCSE_API_KEY and GCSE_CX environment variables are required.")
                      queries /\
    collected (run_queries cfg queries st).2 = collected st /\
    results (run_queries cfg queries st).2 = results st.
Proof.
  intros Hkeys. induction queries as [|q queries IH]; intros st.
  - rewrite run_queries_nil. cbn. by rewrite app_nil_r.
  - rewrite run_queries_cons, google_search_unfold, Hkeys. cbn [negb fst snd is_Exception exn_cls].
    destruct (IH (log_event
                    (EvPrint ["Search error for query:"; q;
                              exn_msg (Exn RuntimeError
                                "GCSE_API_KEY and GCSE_CX environment variables are required.")])
                    st)) as (Hok & Ht & Hc & Hr).
    cbn zeta. rewrite Hok, Ht, Hc, Hr. cbn [trace log_event collected results map exn_msg].
    by rewrite <- app_assoc.
Qed.

(** X6. The events one role adds to the trace follow the loop over its
    queries: per query an error line alone (the call raised before any
    request), a failed request and its error line, a request that was
    answered and then the pause of 400 ms, or a last request at which the
    loop ended.  So the requests ask for queries of the role in their
    order, each at most once, at most one per query, and the role sends
    no mail.  With both search keys set the queries asked are the first
    queries of the role without a gap; with a key missing there is no
    request at all: one error line per query, and the role ends normally
    with an empty list. *)
Theorem role_search_discipline (cfg : Config) (role : string) (st : state) :
  exists new : list event,
    trace (collect_role cfg role st).2 = trace st ++ new /\
    role_trace cfg (build_queries cfg role) new /\
    requested_queries new `sublist_of` build_queries cfg role /\
    (count_requests new <= length (TOP_STARTUPS cfg) + 3)%nat /\
    Forall (fun ev => is_smtp ev = false) new /\
    (truthy (API_KEY cfg) && truthy (CX cfg) = true ->
     requested_queries new `prefix_of` build_queries cfg role) /\
    (truthy (API_KEY cfg) && truthy (CX cfg) = false ->
     new = map (fun q => search_error_line q
                  "GCSE_API_KEY and GCSE_CX environment variables are required.")
               (build_queries cfg role) /\
     (collect_role cfg role st).1 = Ok tt /\
     collected (collect_role cfg role st).2 = []).
Proof.
  destruct (collect_role_trace cfg role st) as (new & Ht & Hrt).
  destruct (role_trace_requests _ _ _ Hrt) as (Hsub & Hpre & Hall).
  exists new. split_and!; [done | done | done | | | done |].
  - rewrite count_requests_queries, <- (build_queries_length cfg role).
    by apply sublist_length.
  - eapply Forall_impl; [exact Hall|]. by intros [].
  - intros Hkeys. revert Ht. rewrite collect_role_unfold. cbn zeta.
    destruct (run_queries_unsent cfg (build_queries cfg role) Hkeys
                (set_collected [] (set_seen ∅ st))) as (Hok & Ht' & Hc & _).
    destruct (run_queries cfg (build_queries cfg role) (set_collected [] (set_seen ∅ st)))
      as [[[]|e] st1]; cbn [fst snd] in *; [|done].
    intros Ht. split_and!; [|done|done].
    cbn [trace set_results set_collected set_seen] in Ht, Ht'. rewrite Ht' in Ht.
    by apply app_inv_head in Ht.
Qed.

(** X7. Whatever the world answers, the trace of a run is a part of
    searches followed by a part without any request: no search is made
    once the mailer has started.  Every request of the first part goes to
    the search endpoint with a timeout of 20 s, for a query of one of the
    roles with the configured key and engine and a count of 8; the
    queries asked follow the queries of the four roles in their order,
    each at most once, so that a run makes at most
    4 * (number of organizations + 3) requests; the first part holds no
    SMTP command. *)
Theorem main_search_budget (cfg : Config) (st : state) :
  exists searches mail : list event,
    trace (main cfg st).2 = trace st ++ searches ++ mail /\
    Forall (request_of_roles cfg ROLES) searches /\
    requested_queries searches `sublist_of` flat_map (build_queries cfg) ROLES /\
    (count_requests searches <= 4 * (length (TOP_STARTUPS cfg) + 3))%nat /\
    Forall (fun ev => is_request ev = false) mail.
Proof.
  rewrite main_unfold. destruct (negb (config_complete cfg)).
  { exists [], []. rewrite !app_nil_r. split_and!; [done | constructor | | cbn; lia | constructor].
    apply sublist_nil_l. }
  cbn zeta.
  destruct (for_roles_trace cfg ROLES (set_results [] st)) as (searches & Ht & Hreq & Hsub & Hcount).
  cbn [trace set_results] in Ht. change (length ROLES) with 4%nat in Hcount.
  destruct (for_roles cfg ROLES (set_results [] st)) as [[[]|e] st1]; cbn [fst snd] in *.
  2:{ exists searches, []. rewrite app_nil_r. by split_and!. }
  destruct (build_html_report _ _) as [html_report|e].
  2:{ exists searches, []. rewrite app_nil_r. by split_and!. }
  set (subject := "Daily job digest " +:+ em_dash +:+ " " +:+ strftime "%Y-%m-%d" (world st1)).
  destruct (send_email_trace cfg subject html_report st1) as (sent & Hs & Hsmtp & _).
  assert (Hmail : Forall (fun ev => is_request ev = false) sent).
  { eapply Forall_impl; [exact Hsmtp|]. by intros []. }
  destruct (send_email cfg subject html_report st1) as [[[]|e] st2]; cbn [fst snd] in *.
  - exists searches, (sent ++ [EvPrint ["Sent email to"; py_str (RECIPIENT cfg)]]).
    split_and!; [|done|done|done|].
    + cbn [trace log_event]. rewrite Hs, Ht. by rewrite <- !app_assoc.
    + apply Forall_app. split; [done|]. by repeat constructor.
  - exists searches, sent. split_and!; [|done|done|done|done].
    rewrite Hs, Ht. by rewrite <- !app_assoc.
Qed.

(** X8. At the end of a role, however it ended, the dict [seen] and the
    list [collected] are in step: every collected item has a key, the
    keys of the collected items are pairwise distinct (also the keys made
    of title and snippet), a key is in [seen] exactly when it is the key
    of a collected item, and [seen] has as many keys as [collected] has
    items. *)
Theorem seen_mirrors_collected (cfg : Config) (role : string) (st : state) :
  exists keys : list pyval,
    Forall2 (fun it key => item_key it = Ok key)
            (collected (collect_role cfg role st).2) keys /\
    NoDup keys /\
    (forall key : pyval, is_Some (seen (collect_role cfg role st).2 !! key) <-> key ∈ keys) /\
    size (seen (collect_role cfg role st).2) = length (collected (collect_role cfg role st).2).
Proof.
  destruct (collect_role_inv cfg role st)
    as (new & consumed & R & _ & _ & [Hsub Hseen Hkeys Hkept Hfirst Hnd] & _).
  set (sn := seen (collect_role cfg role st).2) in *.
  set (c := collected (collect_role cfg role st).2) in *.
  assert (Hin : forall x : item, x ∈ c -> x ∈ consumed).
  { intros x Hx. by eapply elem_of_sublist. }
  destruct (ok_values item_key c) as [keys Hk].
  { intros x Hx. apply Hkeys. by apply Hin. }
  assert (Hnodup : NoDup keys).
  { rewrite (ok_values_map _ _ _ Hk) in Hnd. by apply NoDup_fmap_1 in Hnd. }
  assert (Hiff : forall key : pyval, is_Some (sn !! key) <-> key ∈ keys).
  { intros key. rewrite (ok_values_elem _ _ _ Hk). split.
    - apply Hkept.
    - intros (x & Hx & Hxk). eapply Hseen; [by apply Hin | done]. }
  exists keys. split_and!; [done | done | done |].
  rewrite (Forall2_length _ _ _ Hk), <- size_dom.
  assert (Hdom : dom sn = list_to_set keys).
  { apply set_eq. intros key. by rewrite elem_of_dom, elem_of_list_to_set. }
  rewrite Hdom. by apply size_list_to_set.
Qed.

(** X9. When the loop over pairwise distinct roles, started with an
    empty [results], ends normally, [results] holds exactly the roles as
    keys, in the order of the roles; a report rendered from it is the
    header, one section per role in that order, and the footer. *)
Theorem report_one_section_per_role (cfg : Config) (roles : list string) (st : state)
    (now html : string) :
  NoDup roles ->
  (for_roles cfg roles (set_results [] st)).1 = Ok tt ->
  build_html_report now (results (for_roles cfg roles (set_results [] st)).2) = Ok html ->
  map fst (results (for_roles cfg roles (set_results [] st)).2) = roles /\
  exists parts : list string,
    Forall2 (fun entry part => role_section entry.1 entry.2 = Ok part)
            (results (for_roles cfg roles (set_results [] st)).2) parts /\
    length parts = length roles /\
    html = "<html><body>" +:+ report_header now +:+ concat_str parts +:+ report_footer
           +:+ "</body></html>".
Proof.
  intros Hnd Hok Hhtml.
  destruct (for_roles_keys cfg roles (set_results [] st) Hnd) as (done & Hkeys & _ & Hdone).
  { intros role _. cbn. apply not_elem_of_nil. }
  rewrite (Hdone Hok) in Hkeys. cbn [results set_results map app] in Hkeys.
  split; [done|].
  rewrite build_html_report_spec in Hhtml.
  destruct (role_sections _) as [sections|e] eqn:Hsec; cbn [mbind result_bind] in Hhtml; [|done].
  injection Hhtml as <-.
  destruct (role_sections_parts _ _ Hsec) as (parts & Hparts & ->).
  exists parts. split; [exact Hparts|]. split; [|reflexivity].
  rewrite <- (Forall2_length _ _ _ Hparts), <- (length_map fst). by rewrite Hkeys.
Qed.

(** X10. A run that ends normally has sent exactly one message, after
    all its searches: the trace is the searches of the roles, then the
    connection, the commands of one session with the message whose
    subject carries the date and whose HTML part is the report rendered
    from [results], the [quit], all successful, and last the line
    [Sent email to].  [results] then holds exactly the four roles, in the
    order of [ROLES], and is what the report was rendered from. *)
Theorem main_delivers_report (cfg : Config) (st : state) :
  (main cfg st).1 = Ok tt ->
  exists (searches : list event) (html : string),
    let st1 := (for_roles cfg ROLES (set_results [] st)).2 in
    let subject :=
      "Daily job digest " +:+ em_dash +:+ " " +:+ strftime "%Y-%m-%d" (world st1) in
    config_complete cfg = true /\
    (for_roles cfg ROLES (set_results [] st)).1 = Ok tt /\
    trace st1 = trace st ++ searches /\
    Forall (request_of_roles cfg ROLES) searches /\
    build_html_report (strftime "%Y-%m-%d %H:%M %Z" (world st1)) (results st1) = Ok html /\
    map fst (results st1) = ROLES /\
    results (main cfg st).2 = results st1 /\
    trace (main cfg st).2
    = trace st ++ searches
      ++ EvSmtp (SmtpConnect (SMTP_HOST cfg) (SMTP_PORT cfg) 30) None
         :: succeeded (session_ops cfg (email_message cfg subject html))
      ++ [EvSmtp SmtpQuit None; EvPrint ["Sent email to"; py_str (RECIPIENT cfg)]].
Proof.
  rewrite main_unfold. destruct (config_complete cfg) eqn:Hcfg; cbn [negb]; [|done].
  cbn zeta.
  destruct (for_roles_trace cfg ROLES (set_results [] st)) as (searches & Ht & Hreq & _).
  destruct (for_roles_keys cfg ROLES (set_results [] st)) as (done & Hkeys & _ & Hdone).
  { compute_done. }
  { intros role _. cbn. apply not_elem_of_nil. }
  cbn [trace results set_results map app] in Ht, Hkeys.
  destruct (for_roles cfg ROLES (set_results [] st)) as [[[]|e] st1]; cbn [fst snd] in *; [|done].
  rewrite (Hdone eq_refl) in Hkeys.
  destruct (build_html_report _ _) as [html|e] eqn:Hhtml; [|done].
  set (subject := "Daily job digest " +:+ em_dash +:+ " " +:+ strftime "%Y-%m-%d" (world st1)).
  destruct (send_email_trace cfg subject html st1) as (sent & Hs & _ & Hsent).
  pose proof (send_email_results cfg subject html st1) as Hres.
  destruct (send_email cfg subject html st1) as [[[]|e] st2]; cbn [fst snd] in *; [|done].
  intros _. exists searches, html. split_and!; try done.
  cbn [trace log_event]. rewrite Hs, Ht, (Hsent eq_refl).
  rewrite <- !app_assoc. cbn [app]. by rewrite <- !app_assoc.
Qed.

(** X11. With a complete configuration, when the aggregation raises (a
    hit without title and link, an interrupt during a request, a
    malformed items array) or the report cannot be rendered, the run
    ends with that exception in the state the aggregation left: no SMTP
    command was issued, nothing was sent, and [results] holds the roles
    completed so far, a prefix of [ROLES]. *)
Theorem main_aborts_before_mail (cfg : Config) (st : state) (e : exn) :
  config_complete cfg = true ->
  (for_roles cfg ROLES (set_results [] st)).1 = Raise e \/
  ((for_roles cfg ROLES (set_results [] st)).1 = Ok tt /\
   build_html_report
     (strftime "%Y-%m-%d %H:%M %Z" (world (for_roles cfg ROLES (set_results [] st)).2))
     (results (for_roles cfg ROLES (set_results [] st)).2) = Raise e) ->
  main cfg st = (Raise e, (for_roles cfg ROLES (set_results [] st)).2) /\
  map fst (results (main cfg st).2) `prefix_of` ROLES /\
  exists new : list event,
    trace (main cfg st).2 = trace st ++ new /\
    Forall (fun ev => is_smtp ev = false) new.
Proof.
  intros Hcfg Hfail.
  assert (Hmain : main cfg st = (Raise e, (for_roles cfg ROLES (set_results [] st)).2)).
  { rewrite main_unfold, Hcfg. cbn [negb]. cbn zeta.
    destruct Hfail as [Hr|[Hr Hb]]; rewrite Hr; [done|]. by rewrite Hb. }
  rewrite Hmain. cbn [snd]. split; [done|].
  destruct (for_roles_trace cfg ROLES (set_results [] st)) as (searches & Ht & Hreq & _).
  destruct (for_roles_keys cfg ROLES (set_results [] st)) as (done & Hkeys & Hpre & _).
  { compute_done. }
  { intros role _. cbn. apply not_elem_of_nil. }
  cbn [trace results set_results map app] in Ht, Hkeys.
  split; [by rewrite Hkeys|].
  exists searches. split; [done|].
  eapply Forall_impl; [exact Hreq|]. by intros [].
Qed.

End RunProperties.

Lemma role_search_discipline_witness :
  exists new : list event,
    trace (@collect_role scripted sample_config "Backend Developer" sample_state).2
    = trace sample_state ++ new /\
    requested_queries new `prefix_of` build_queries sample_config "Backend Developer".
Proof.
  destruct (@role_search_discipline scripted sample_config "Backend Developer" sample_state)
    as (new & Ht & _ & _ & _ & _ & Hpre & _).
  exists new. split; [exact Ht|]. apply Hpre. reflexivity.
Defined.

Lemma seen_mirrors_collected_witness :
  size (seen (@collect_role scripted sample_config "Backend Developer" sample_state).2)
  = length (collected (@collect_role scripted sample_config "Backend Developer" sample_state).2).
Proof.
  destruct (@seen_mirrors_collected scripted sample_config "Backend Developer" sample_state)
    as (keys & _ & _ & _ & Hsize).
  exact Hsize.
Defined.

Lemma report_one_section_per_role_witness :
  map fst (results (@for_roles stub sample_config ROLES
                      (set_results [] (@initial_state stub tt))).2) = ROLES.
Proof.
  destruct (@report_one_section_per_role stub sample_config ROLES (@initial_state stub tt)
              "now"
              (match build_html_report "now"
                       (results (@for_roles stub sample_config ROLES
                                   (set_results [] (@initial_state stub tt))).2) with
               | Ok html => html
               | Raise _ => ""
               end)) as [Hkeys _].
  - compute_done.
  - reflexivity.
  - reflexivity.
  - exact Hkeys.
Defined.

Lemma main_delivers_report_witness :
  map fst (results (@main stub sample_config (@initial_state stub tt)).2) = ROLES.
Proof.
  destruct (@main_delivers_report stub sample_config (@initial_state stub tt))
    as (searches & html & _ & _ & _ & _ & _ & Hkeys & Hres & _).
  - reflexivity.
  - cbn zeta in Hkeys, Hres. rewrite Hres. exact Hkeys.
Defined.

Lemma main_aborts_before_mail_witness :
  exists e : exn,
    exn_cls e = TypeError /\
    @main scripted sample_config untitled_unlinked_state
    = (Raise e, (@for_roles scripted sample_config ROLES
                   (set_results [] untitled_unlinked_state)).2).
Proof.
  eexists. split; [|
    apply (@main_aborts_before_mail scripted sample_config untitled_unlinked_state);
      [reflexivity | left; reflexivity]].
  reflexivity.
Defined.

(* ===================================================================== *)
(** * The loaded configuration at work                                   *)
(* ===================================================================== *)






Section LoadedRun.
Context `{Env}.




End LoadedRun.


Example load_config_sample : load_config sample_int sample_environ = Some loaded_sample.
Proof. reflexivity. Qed.

